(** * Shooter: dual-flywheel velocity control (components/shooter.py)

    A shallow embedding of the [Shooter] component.  Python floats are IEEE
    binary64 values; they are modelled by [spec_float] at precision 53 and
    maximal exponent 1024, so every arithmetic step below rounds exactly as
    the interpreter does.  Hardware calls made by [execute] are recorded as
    a list of commands; the one Python exception the component can raise on
    its own ([ZeroDivisionError]) is an explicit error result. *)

From Stdlib Require Import ZArith Bool List Lia SpecFloat.
Import ListNotations.
Local Open Scope Z_scope.

(** ** Python floats *)

Module Float.

Definition prec : Z := 53.
Definition emax : Z := 1024.

Definition float := spec_float.

Definition nan : float := S754_nan.
Definition zero : float := S754_zero false.
Definition infinity : float := S754_infinity false.

(** [float(z)] for a Python int: round to nearest, ties to even. *)
Definition of_int (z : Z) : float := binary_normalize prec emax z 0 false.

Definition add : float -> float -> float := SFadd prec emax.
Definition sub : float -> float -> float := SFsub prec emax.
Definition mul : float -> float -> float := SFmul prec emax.
Definition div : float -> float -> float := SFdiv prec emax.
Definition abs : float -> float := SFabs.

Definition ltb : float -> float -> bool := SFltb.
Definition leb : float -> float -> bool := SFleb.
Definition eqb : float -> float -> bool := SFeqb.

Definition is_nan (x : float) : bool :=
  match x with S754_nan => true | _ => false end.

Definition is_zero (x : float) : bool :=
  match x with S754_zero _ => true | _ => false end.

Definition is_inf (x : float) : bool :=
  match x with S754_infinity _ => true | _ => false end.

(** [math.isfinite]: neither an infinity nor a NaN. *)
Definition is_finite (x : float) : bool :=
  match x with S754_zero _ | S754_finite _ _ _ => true | _ => false end.

(** The decimal literal [n / 10^k] with small [n]: both integers are exact
    and the division rounds correctly, which is the value the Python
    parser gives to the literal. *)
Definition decimal (n : Z) (k : positive) : float :=
  div (of_int n) (of_int (Z.pow_pos 10 k)).

End Float.

Import Float.

Declare Scope float_scope.
Delimit Scope float_scope with float.
Bind Scope float_scope with float.
Infix "+" := add : float_scope.
Infix "-" := sub : float_scope.
Infix "*" := mul : float_scope.
Infix "/" := div : float_scope.
Infix "<?" := ltb : float_scope.
Infix "<=?" := leb : float_scope.
Infix "=?" := eqb : float_scope.

(** ** Python exceptions as an error result *)

Inductive exn : Set := ZeroDivisionError.

Inductive result (A : Type) : Type :=
| Ok (a : A)
| Raise (e : exn).
Arguments Ok {A} a.
Arguments Raise {A} e.

Definition bind {A B : Type} (c : result A) (k : A -> result B) : result B :=
  match c with
  | Ok a => k a
  | Raise e => Raise e
  end.

Notation "x <- c ;; k" := (bind c (fun x => k))
  (at level 61, c at next level, right associativity).

Module Py.

(** [x / y] on floats: a zero divisor of either sign raises. *)
Definition truediv (x y : float) : result float :=
  if is_zero y then Raise ZeroDivisionError else Ok (x / y)%float.

(** [max(a, b)]: the first argument is kept unless the second is greater. *)
Definition max (a b : float) : float := if (a <? b)%float then b else a.

(** [min(a, b)]: the first argument is kept unless the second is smaller. *)
Definition min (a b : float) : float := if (b <? a)%float then b else a.

End Py.

(** ** numpy.interp *)

Module Numpy.

(** The index search on a short sorted array, entered with
    [arr[0] <= key]:
    [for (i = 1; i < len && key >= arr[i]; ++i); return i - 1].
    [rest] is the array from index [i] on, and [j] is [i - 1]. *)
Fixpoint search (key : float) (rest : list float) (j : nat) : nat :=
  match rest with
  | [] => j
  | a :: rest' => if (a <=? key)%float then search key rest' (S j) else j
  end.

(** The line through [(x0, y0)] and [(x1, y1)], in NumPy's order of
    operations: [slope * (x - x0) + y0]. *)
Definition linear_piece (x x0 y0 x1 y1 : float) : float :=
  ((y1 - y0) / (x1 - x0) * (x - x0) + y0)%float.

(** Modelled from the spec: [numpy.interp] is imported from NumPy and is
    not part of the repository.  It is the one-dimensional piecewise-linear
    interpolant through the points [(xp, fp)]: between two adjacent
    samples the value is interpolated linearly, at a sample it is the
    sample's value, and at or beyond the table bounds it is the boundary
    value.  A NaN argument gives NaN. *)
Definition interp (x : float) (xp fp : list float) : float :=
  if is_nan x then x
  else if (last xp nan <? x)%float then last fp nan
  else if (x <? hd nan xp)%float then hd nan fp
  else
    let j := search x (tl xp) 0 in
    if (S j =? length xp)%nat then nth j fp nan
    else if (nth j xp nan =? x)%float then nth j fp nan
    else linear_piece x (nth j xp nan) (nth j fp nan)
                        (nth (S j) xp nan) (nth (S j) fp nan).

End Numpy.

(** ** wpilib.controller.SimpleMotorFeedforward *)

Module Wpilib.

Record SimpleMotorFeedforward : Set := { kS : float; kV : float }.

(** The sign of a velocity: 1, -1 or 0; a zero of either sign and NaN
    give 0. *)
Definition sgn (v : float) : float :=
  if (zero <? v)%float then of_int 1
  else if (v <? zero)%float then of_int (-1)
  else zero.

(** Modelled from the spec: [SimpleMotorFeedforward.calculate] belongs to
    WPILib and is not part of the repository.  The feedforward voltage is
    [staticVoltage * sign(velocity) + velocityGain * velocity], with the
    sign of zero being zero. *)
Definition calculate (c : SimpleMotorFeedforward) (velocity : float) : float :=
  (kS c * sgn velocity + kV c * velocity)%float.

End Wpilib.

Import Numpy Wpilib.

(** ** The component *)

(** Class attributes.  The tuples hold Python ints; NumPy and the
    comparisons in [set_range] read them as the floats of the same value. *)
Definition ranges : list float := map of_int [0; 7; 8; 9; 10; 11].
Definition centre_rpms : list float :=
  map of_int [0; 880; 1120; 1500; 2150; 2400].
Definition outer_rpms : list float :=
  map of_int [5000; 5000; 5000; 5000; 5000; 5000].

Definition COUNTS_PER_REV : Z := 2048.
(** [COUNTS_PER_REV / 10]: true division of two ints. *)
Definition RPS_TO_CTRE_UNITS : float :=
  (of_int COUNTS_PER_REV / of_int 10)%float.
Definition CTRE_UNITS_TO_RPS : float := (of_int 1 / RPS_TO_CTRE_UNITS)%float.

(** Instance attributes, and the two tunables. *)
Record Shooter : Set := {
  inject : bool;
  in_range : bool;
  velocity_tolerance : float;
  outer_target : float;
  centre_target : float
}.

(** What the injected hardware reports when asked.  The sensor velocities
    are Python ints, in encoder counts per 100 ms. *)
Record readings : Set := {
  input_voltage : float;          (* RobotController.getInputVoltage() *)
  centre_sensor_velocity : Z;     (* centre_motor.getSelectedSensorVelocity() *)
  outer_sensor_velocity : Z;      (* outer_motor.getSelectedSensorVelocity() *)
  piston : bool                   (* loading_piston.get() *)
}.

(** What the component tells the hardware to do. *)
Inductive motor : Set := centre_motor | outer_motor.

(** [Set_velocity m v ff] is
    [m.set(ControlMode.Velocity, v, DemandType.ArbitraryFeedForward, ff)];
    [StartPulse] is [loading_piston.startPulse()]. *)
Inductive command : Set :=
| Set_velocity (m : motor) (demand0 : float) (feed_forward : float)
| StartPulse.

(** [__init__], with the tunables at their declared default 0. *)
Definition __init__ : Shooter :=
  {| inject := false;
     in_range := false;
     velocity_tolerance := decimal 5 2;
     outer_target := of_int 0;
     centre_target := of_int 0 |}.

(** The feedforward models built by [setup], which the framework runs
    once before the first control cycle. *)
Definition outer_ff_calculator : SimpleMotorFeedforward :=
  {| kS := decimal 187 3; kV := decimal 11 2 |}.
Definition centre_ff_calculator : SimpleMotorFeedforward :=
  {| kS := decimal 158 3; kV := decimal 11 2 |}.

Definition execute (self : Shooter) (hw : readings)
  : result (Shooter * list command) :=
  let voltage := input_voltage hw in
  centre_feed_forward <-
    Py.truediv (calculate centre_ff_calculator (centre_target self)) voltage ;;
  outer_feed_forward <-
    Py.truediv (calculate outer_ff_calculator (outer_target self)) voltage ;;
  let sent :=
    [ Set_velocity centre_motor
        (centre_target self * RPS_TO_CTRE_UNITS)%float centre_feed_forward;
      Set_velocity outer_motor
        (outer_target self * RPS_TO_CTRE_UNITS)%float outer_feed_forward ] in
  if inject self
  then Ok ({| inject := false;
              in_range := in_range self;
              velocity_tolerance := velocity_tolerance self;
              outer_target := outer_target self;
              centre_target := centre_target self |},
           sent ++ [StartPulse])
  else Ok (self, sent).

Definition set_range (self : Shooter) (dist : float) : Shooter :=
  let lo := hd nan ranges in
  let hi := last ranges nan in
  let '(dist, in_range') :=
    if ((lo <=? dist) && (dist <=? hi))%float
    then (dist, true)
    else (Py.min hi (Py.max dist lo), false) in
  {| inject := inject self;
     in_range := in_range';
     velocity_tolerance := velocity_tolerance self;
     outer_target := interp dist ranges outer_rpms;
     centre_target := interp dist ranges centre_rpms |}.

Definition get_centre_velocity (hw : readings) : float :=
  (of_int (centre_sensor_velocity hw) * CTRE_UNITS_TO_RPS)%float.

Definition get_outer_velocity (hw : readings) : float :=
  (of_int (outer_sensor_velocity hw) * CTRE_UNITS_TO_RPS)%float.

Definition is_at_speed (self : Shooter) (hw : readings) : bool :=
  (abs (centre_target self - get_centre_velocity hw)
     <=? centre_target self * velocity_tolerance self)%float
  && (abs (outer_target self - get_outer_velocity hw)
     <=? outer_target self * velocity_tolerance self)%float.

Definition is_firing (hw : readings) : bool := piston hw.

Definition is_in_range (self : Shooter) : bool := in_range self.

Definition is_ready (self : Shooter) (hw : readings) : bool :=
  is_in_range self && is_at_speed self hw && negb (is_firing hw).

Definition fire (self : Shooter) : Shooter :=
  {| inject := true;
     in_range := in_range self;
     velocity_tolerance := velocity_tolerance self;
     outer_target := outer_target self;
     centre_target := centre_target self |}.

(** ** Observations and specification-side definitions *)

(** The feedforward values, velocity set-points and number of pulse starts
    among the commands of one control cycle. *)
Definition feed_forwards (sent : list command) : list float :=
  flat_map (fun c => match c with
                     | Set_velocity _ _ ff => [ff]
                     | StartPulse => []
                     end) sent.

Definition setpoints (sent : list command) : list float :=
  flat_map (fun c => match c with
                     | Set_velocity _ v _ => [v]
                     | StartPulse => []
                     end) sent.

Definition pulses (sent : list command) : nat :=
  length (filter (fun c => match c with
                           | StartPulse => true
                           | Set_velocity _ _ _ => false
                           end) sent).

(** Hardware with the given supply voltage, motors at rest, piston in. *)
Definition at_voltage (v : float) : readings :=
  {| input_voltage := v;
     centre_sensor_velocity := 0;
     outer_sensor_velocity := 0;
     piston := false |}.

(** Hardware at 12 V with the given raw velocity readings. *)
Definition spinning (centre outer : Z) : readings :=
  {| input_voltage := of_int 12;
     centre_sensor_velocity := centre;
     outer_sensor_velocity := outer;
     piston := false |}.

(** A shooter whose two targets were set by hand through the tunables. *)
Definition tuned (centre outer : float) : Shooter :=
  {| inject := false;
     in_range := false;
     velocity_tolerance := decimal 5 2;
     outer_target := outer;
     centre_target := centre |}.

Definition sample (table : list float) (j : nat) : float := nth j table nan.

(** The spec's linear interpolation between the samples [(x0, y0)] and
    [(x1, y1)], each operation rounded to binary64. *)
Definition lerp (x x0 y0 x1 y1 : float) : float :=
  (y0 + (x - x0) * ((y1 - y0) / (x1 - x0)))%float.

(** The spec's [isAtSpeed]: [|target - measured| <= |target| * tolerance]. *)
Definition within_tolerance (target measured toleranceFraction : float) : bool :=
  (abs (target - measured) <=? abs target * toleranceFraction)%float.

(** The spec's guard on the supply voltage: the cycle completes and both
    feedforward values it sends are zero. *)
Definition feed_forward_zeroed (self : Shooter) (hw : readings) : Prop :=
  exists self' sent centre_ff outer_ff,
    execute self hw = Ok (self', sent) /\
    feed_forwards sent = [centre_ff; outer_ff] /\
    is_zero centre_ff = true /\ is_zero outer_ff = true.

(** ** Sequences of calls *)

(** The calls a robot makes on the component.  [on_enable] and [setup]
    only configure the hardware and are not among them. *)
Inductive call : Set :=
| Call_fire
| Call_set_range (dist : float)
| Call_execute (hw : readings).

(** The calls made one after the other on one instance; the commands sent
    are collected, and an exception ends the sequence. *)
Fixpoint run (self : Shooter) (calls : list call)
  : result (Shooter * list command) :=
  match calls with
  | [] => Ok (self, [])
  | Call_fire :: rest => run (fire self) rest
  | Call_set_range dist :: rest => run (set_range self dist) rest
  | Call_execute hw :: rest =>
      first <- execute self hw ;;
      then_ <- run (fst first) rest ;;
      Ok (fst then_, snd first ++ snd then_)
  end.

Definition fires (calls : list call) : nat :=
  length (filter (fun c => match c with
                           | Call_fire => true
                           | _ => false
                           end) calls).

Definition cycles (calls : list call) : nat :=
  length (filter (fun c => match c with
                           | Call_execute _ => true
                           | _ => false
                           end) calls).

(** No control cycle of the sequence reads a supply voltage of zero. *)
Definition powered (calls : list call) : bool :=
  forallb (fun c => match c with
                    | Call_execute hw => negb (is_zero (input_voltage hw))
                    | _ => true
                    end) calls.

(** The number of fire requests waiting in a state: one or none. *)
Definition pending (self : Shooter) : nat := if inject self then 1 else 0.

(** ** Floats that a Python program can hold *)

(** A binary64 value: a finite float is in canonical form, its mantissa
    having at most 53 digits and its exponent lying in the format's range. *)
Definition valid (x : float) : bool := valid_binary prec emax x.

(** A zero, or a positive finite float below [2 ^ B]. *)
Definition bounded_nonneg (B : Z) (x : float) : Prop :=
  match x with
  | S754_zero _ => True
  | S754_finite false m e => Zdigits2 (Z.pos m) + e <= B
  | _ => False
  end.

(** ** Facts about binary64 comparison and arithmetic *)

Module FloatFacts.

Lemma compare_antisym (x y : float) :
  SFcompare y x = option_map CompOpp (SFcompare x y).
Proof.
  destruct x as [s| s| |s m e], y as [s'| s'| |s' m' e']; simpl;
    try destruct s; try destruct s'; try reflexivity;
    rewrite (Z.compare_antisym e e');
    change (Pos.compare_cont Eq m' m) with (Pos.compare_cont (CompOpp Eq) m' m);
    rewrite <- (Pos.compare_cont_antisym m m' Eq);
    destruct (e ?= e'); simpl; try reflexivity;
    destruct (Pos.compare_cont Eq m m'); reflexivity.
Qed.

Lemma compare_refl (x : float) : is_nan x = false -> SFcompare x x = Some Eq.
Proof.
  destruct x as [s| s| |s m e]; simpl; intros H; try discriminate;
    try (destruct s; reflexivity).
  rewrite Z.compare_refl, Pos.compare_cont_refl. destruct s; reflexivity.
Qed.

Lemma compare_eq_finite (s : bool) (m : positive) (e : Z) (x : float) :
  SFcompare (S754_finite s m e) x = Some Eq -> x = S754_finite s m e.
Proof.
  destruct x as [s'| s'| |s' m' e']; simpl;
    try (destruct s; discriminate); try (destruct s, s'; discriminate).
  destruct s, s'; try discriminate;
    destruct (Z.compare_spec e e') as [He|He|He]; try discriminate;
    intros H; injection H as H.
  - apply (f_equal CompOpp) in H. rewrite CompOpp_involutive in H. simpl in H.
    apply Pos.compare_eq in H. now subst.
  - apply Pos.compare_eq in H. now subst.
Qed.

(** A comparison that holds rules out the opposite strict one. *)
Lemma ltb_not_leb (x y : float) :
  (x <? y)%float = true -> (y <=? x)%float = false.
Proof.
  unfold ltb, leb, SFltb, SFleb. rewrite (compare_antisym x y).
  destruct (SFcompare x y) as [[ | | ]|]; simpl; congruence.
Qed.

Lemma leb_not_ltb (x y : float) :
  (x <=? y)%float = true -> (y <? x)%float = false.
Proof.
  unfold ltb, leb, SFltb, SFleb. rewrite (compare_antisym x y).
  destruct (SFcompare x y) as [[ | | ]|]; simpl; congruence.
Qed.

Lemma ltb_leb (x y : float) : (x <? y)%float = true -> (x <=? y)%float = true.
Proof.
  unfold ltb, leb, SFltb, SFleb.
  destruct (SFcompare x y) as [[ | | ]|]; simpl; congruence.
Qed.

(** NaN compares false with everything. *)
Lemma leb_not_nan (x y : float) :
  (x <=? y)%float = true -> is_nan x = false /\ is_nan y = false.
Proof.
  unfold leb, SFleb. destruct x, y; simpl; try discriminate; auto.
Qed.

(** Away from NaN the order is total. *)
Lemma not_leb_ltb (x y : float) :
  is_nan x = false -> is_nan y = false ->
  (x <=? y)%float = false -> (y <? x)%float = true.
Proof.
  unfold ltb, leb, SFltb, SFleb. rewrite (compare_antisym x y).
  intros Hx Hy.
  assert (H : SFcompare x y <> None).
  { destruct x, y; simpl in *; discriminate. }
  destruct (SFcompare x y) as [[ | | ]|]; simpl; congruence.
Qed.

Lemma leb_refl (x : float) : is_nan x = false -> (x <=? x)%float = true.
Proof. intros H. unfold leb, SFleb. now rewrite compare_refl. Qed.

(** Both zeros compare alike. *)
Lemma leb_zero_sign (x : float) (s s' : bool) :
  (x <=? S754_zero s)%float = (x <=? S754_zero s')%float.
Proof. destruct x; reflexivity. Qed.

Lemma eqb_zero (s : bool) (x : float) :
  (S754_zero s =? x)%float = true -> is_zero x = true.
Proof.
  unfold eqb, SFeqb. destruct x as [s'| s'| |s' m' e']; simpl; try reflexivity;
    try destruct s'; discriminate.
Qed.

(** Apart from the two zeros, floats that compare equal are the same float. *)
Lemma eqb_eq (c x : float) :
  is_zero c = false -> (c =? x)%float = true -> x = c.
Proof.
  destruct c as [s| s| |s m e]; simpl; intros Hz H; try discriminate.
  - unfold eqb, SFeqb in H.
    destruct x as [s'| s'| |s' m' e'], s; simpl in H;
      try destruct s'; try discriminate; reflexivity.
  - unfold eqb, SFeqb in H. apply compare_eq_finite.
    destruct (SFcompare (S754_finite s m e) x) as [[ | | ]|]; congruence.
Qed.

Lemma leb_antisym (c x : float) :
  is_zero c = false ->
  (c <=? x)%float = true -> (x <=? c)%float = true -> x = c.
Proof.
  intros Hz H1 H2. apply eqb_eq; [exact Hz|].
  unfold leb, SFleb, eqb, SFeqb in *. rewrite (compare_antisym c x) in H2.
  destruct (SFcompare c x) as [[ | | ]|]; simpl in *; congruence.
Qed.

(** Anything above a positive float is not below zero. *)
Lemma ltb_trans_zero (c x : float) :
  (zero <? c)%float = true -> (c <? x)%float = true -> (x <? zero)%float = false.
Proof.
  unfold ltb, SFltb, zero.
  destruct c as [s| s| |s m e], x as [s'| s'| |s' m' e']; simpl;
    try destruct s; try destruct s'; try discriminate; reflexivity.
Qed.

Lemma mul_comm (x y : float) : (x * y)%float = (y * x)%float.
Proof.
  unfold mul, SFmul.
  destruct x as [s| s| |s m e], y as [s'| s'| |s' m' e'];
    try rewrite (xorb_comm s s'); try reflexivity.
  now rewrite (Pos.mul_comm m m'), (Z.add_comm e e').
Qed.

Lemma add_comm (x y : float) : (x + y)%float = (y + x)%float.
Proof.
  unfold add, SFadd.
  destruct x as [s| s| |s m e], y as [s'| s'| |s' m' e'];
    try destruct s; try destruct s'; try reflexivity;
    rewrite (Z.min_comm e e'); f_equal; apply Z.add_comm.
Qed.

Lemma nan_not_zero (v : float) : is_nan v = true -> is_zero v = false.
Proof. destruct v; (discriminate || reflexivity). Qed.

Lemma inf_not_zero (v : float) : is_inf v = true -> is_zero v = false.
Proof. destruct v; (discriminate || reflexivity). Qed.

Lemma div_nan (x : float) : (x / nan)%float = nan.
Proof. destruct x; reflexivity. Qed.

Lemma div_inf (x v : float) :
  is_finite x = true -> is_inf v = true -> is_zero (x / v)%float = true.
Proof. destruct x, v; simpl; intros; try discriminate; reflexivity. Qed.

Lemma div_zero_finite (x v : float) :
  is_zero x = true -> is_finite v = true -> is_zero v = false ->
  is_zero (x / v)%float = true.
Proof. destruct x, v; simpl; intros; try discriminate; reflexivity. Qed.

(** For a target that is not negative, the signed tolerance bound of the
    code and the bound on the magnitude accept the same errors. *)
Lemma tolerance_signed_magnitude (x t tol : float) :
  (zero <=? t)%float = true ->
  (x <=? t * tol)%float = (x <=? abs t * tol)%float.
Proof.
  destruct t as [s|s| |s m e]; try destruct s; try discriminate; try reflexivity.
  intros _. destruct tol as [a|a| |a ma ea]; try reflexivity; apply leb_zero_sign.
Qed.

(** Around a zero target the tolerance window is the single point zero. *)
Lemma zero_target_window (t m tol : float) :
  is_zero t = true ->
  (abs (t - m) <=? t * tol)%float = true -> is_zero m = true.
Proof.
  destruct t as [s| | |]; try discriminate. intros _.
  destruct m as [s'|s'| |s' m' e']; [reflexivity| | |];
    destruct tol as [a|a| |a ma ea];
    try destruct s; try destruct s'; try destruct a; discriminate.
Qed.

End FloatFacts.

Import FloatFacts.

(** ** Facts about the interpolation *)

Module NumpyFacts.

Lemma search_range (key : float) (rest : list float) (j : nat) :
  (j <= search key rest j <= j + length rest)%nat.
Proof.
  revert j. induction rest as [|a rest IH]; intros j; simpl; [lia|].
  destruct (a <=? key)%float; [specialize (IH (S j))|]; lia.
Qed.

(** Every sample the search passes over is at or below the key. *)
Lemma search_passed (key : float) (rest : list float) (j i : nat) :
  (j + i < search key rest j)%nat -> (nth i rest nan <=? key)%float = true.
Proof.
  revert j i. induction rest as [|a rest IH]; intros j i; simpl.
  - lia.
  - destruct (a <=? key)%float eqn:Ha; [|lia].
    destruct i as [|i]; [trivial|]. intros H. apply (IH (S j)). lia.
Qed.

(** The sample at which the search stops, if any, is not at or below the
    key. *)
Lemma search_stopped (key : float) (rest : list float) (j : nat) :
  (search key rest j < j + length rest)%nat ->
  (nth (search key rest j - j) rest nan <=? key)%float = false.
Proof.
  revert j. induction rest as [|a rest IH]; intros j; simpl.
  - lia.
  - destruct (a <=? key)%float eqn:Ha.
    + intros H. specialize (IH (S j)).
      pose proof (search_range key rest (S j)) as R.
      replace (search key rest (S j) - j)%nat
        with (S (search key rest (S j) - S j)) by lia.
      apply IH. lia.
    + intros _. now rewrite Nat.sub_diag.
Qed.

(** Inside the table, [interp] works on the pair of samples found by the
    search: the last sample at or below [x] and the one after it. *)
Lemma interp_in_table (x x0 : float) (xs fp : list float) :
  (x0 <=? x)%float = true -> (x <=? last (x0 :: xs) nan)%float = true ->
  let xp := x0 :: xs in
  let j := search x xs 0 in
  (nth j xp nan <=? x)%float = true /\
  ((S j = length xp /\ interp x xp fp = nth j fp nan) \/
   ((S j < length xp)%nat /\ (nth (S j) xp nan <=? x)%float = false /\
    interp x xp fp =
      if (nth j xp nan =? x)%float then nth j fp nan
      else linear_piece x (nth j xp nan) (nth j fp nan)
                          (nth (S j) xp nan) (nth (S j) fp nan))).
Proof.
  intros Hlo Hhi xp j.
  pose proof (search_range x xs 0) as R. fold j in R.
  split.
  - destruct j as [|j'] eqn:Ej; [exact Hlo|].
    simpl. apply (search_passed x xs 0 j'). fold j. lia.
  - unfold interp.
    destruct (leb_not_nan _ _ Hlo) as [_ Hx]. rewrite Hx.
    subst xp. rewrite (leb_not_ltb _ _ Hhi).
    change (hd nan (x0 :: xs)) with x0. rewrite (leb_not_ltb _ _ Hlo).
    change (tl (x0 :: xs)) with xs. fold j.
    destruct (Nat.eqb_spec (S j) (length (x0 :: xs))) as [E|E].
    + left. split; [exact E | reflexivity].
    + right. simpl in E. simpl length. split; [lia|]. split; [|reflexivity].
      simpl. pose proof (search_stopped x xs 0) as S0. fold j in S0.
      rewrite Nat.sub_0_r in S0. apply S0. lia.
Qed.

(** NumPy's order of operations and the textbook one round alike. *)
Lemma linear_piece_lerp (x x0 y0 x1 y1 : float) :
  linear_piece x x0 y0 x1 y1 = lerp x x0 y0 x1 y1.
Proof. unfold linear_piece, lerp. now rewrite add_comm, mul_comm. Qed.

End NumpyFacts.

Import NumpyFacts.

(** ** Facts about one control cycle *)

Lemma execute_zero_voltage (self : Shooter) (hw : readings) :
  is_zero (input_voltage hw) = true -> execute self hw = Raise ZeroDivisionError.
Proof.
  intros Hv. unfold execute, Py.truediv. rewrite Hv. reflexivity.
Qed.

Lemma execute_nonzero_voltage (self : Shooter) (hw : readings) :
  is_zero (input_voltage hw) = false ->
  execute self hw =
    let sent :=
      [ Set_velocity centre_motor (centre_target self * RPS_TO_CTRE_UNITS)%float
          (calculate centre_ff_calculator (centre_target self)
             / input_voltage hw)%float;
        Set_velocity outer_motor (outer_target self * RPS_TO_CTRE_UNITS)%float
          (calculate outer_ff_calculator (outer_target self)
             / input_voltage hw)%float ] in
    if inject self
    then Ok ({| inject := false;
                in_range := in_range self;
                velocity_tolerance := velocity_tolerance self;
                outer_target := outer_target self;
                centre_target := centre_target self |},
             sent ++ [StartPulse])
    else Ok (self, sent).
Proof.
  intros Hv. unfold execute, Py.truediv. rewrite Hv. reflexivity.
Qed.

(** With finite gains the feedforward model gives zero volts at zero
    velocity. *)
Lemma calculate_zero (c : SimpleMotorFeedforward) (v : float) :
  is_finite (kS c) = true -> is_finite (kV c) = true ->
  is_zero v = true -> is_zero (calculate c v) = true.
Proof.
  destruct c as [ks kv]. unfold calculate. cbn [kS kV].
  destruct v as [s| | |]; try discriminate. intros Hs Hv _.
  replace (sgn (S754_zero s)) with zero by (destruct s; reflexivity).
  destruct ks as [a|a| |a ma ea], kv as [b|b| |b mb eb]; try discriminate;
    destruct a, b, s; reflexivity.
Qed.

(** A NaN supply voltage is not a zero, so the cycle completes, and it
    turns both feedforward values into NaN. *)
Lemma execute_nan_voltage (self : Shooter) (hw : readings) :
  is_nan (input_voltage hw) = true ->
  exists self' sent,
    execute self hw = Ok (self', sent) /\ feed_forwards sent = [nan; nan].
Proof.
  intros Hv.
  rewrite (execute_nonzero_voltage _ _ (nan_not_zero _ Hv)).
  destruct (input_voltage hw); try discriminate.
  destruct (inject self); do 2 eexists; (split; [reflexivity|]);
    cbn [feed_forwards flat_map app]; now rewrite !div_nan.
Qed.

(** ** The constants and a few runs *)

(** The literal 0.05 is 0x1.999999999999ap-5. *)
Example literal_0_05 :
  decimal 5 2 = S754_finite false 7205759403792794 (-57).
Proof. vm_compute. reflexivity. Qed.

(** 2048 / 10 is the double nearest to 204.8, and its inverse is exactly
    5 / 1024 = 0.0048828125. *)
Example units_constants :
  RPS_TO_CTRE_UNITS = S754_finite false 7205759403792794 (-45) /\
  CTRE_UNITS_TO_RPS = decimal 48828125 10.
Proof. vm_compute. split; reflexivity. Qed.

(** 20480 counts per 100 ms are 100 revolutions per second. *)
Example get_centre_velocity_100 :
  get_centre_velocity (spinning 20480 0) = of_int 100.
Proof. vm_compute. reflexivity. Qed.

(** NaN is clamped to the far end of the table. *)
Example set_range_nan :
  set_range __init__ nan =
    {| inject := false; in_range := false; velocity_tolerance := decimal 5 2;
       outer_target := of_int 5000; centre_target := of_int 2400 |}.
Proof. vm_compute. reflexivity. Qed.

(** A cycle at 12 V after ranging to 7.5 and asking for a shot. *)
Example execute_after_fire :
  execute (fire (set_range __init__ (decimal 75 1))) (at_voltage (of_int 12)) =
    Ok (set_range __init__ (decimal 75 1),
        [ Set_velocity centre_motor (of_int 204800)
            ((decimal 158 3 + decimal 11 2 * of_int 1000) / of_int 12)%float;
          Set_velocity outer_motor (of_int 1024000)
            ((decimal 187 3 + decimal 11 2 * of_int 5000) / of_int 12)%float;
          StartPulse ]).
Proof. vm_compute. reflexivity. Qed.

(** ** Feedforward and the supply voltage *)

(** C1, as the code has it: [execute] divides by the measured supply
    voltage without any guard.  For every pair of targets, a supply
    voltage of zero (of either sign) makes the cycle raise
    [ZeroDivisionError] before any command is sent; a NaN supply voltage
    makes both feedforward values NaN; an infinite supply voltage gives
    two zero feedforward values whenever the feedforward model's output
    for the two targets is finite. *)
Theorem execute_feed_forward_unguarded (self : Shooter) (hw : readings) :
  (is_zero (input_voltage hw) = true ->
   execute self hw = Raise ZeroDivisionError) /\
  (is_nan (input_voltage hw) = true ->
   exists self' sent,
     execute self hw = Ok (self', sent) /\ feed_forwards sent = [nan; nan]) /\
  (is_inf (input_voltage hw) = true ->
   is_finite (calculate centre_ff_calculator (centre_target self)) = true ->
   is_finite (calculate outer_ff_calculator (outer_target self)) = true ->
   feed_forward_zeroed self hw).
Proof.
  split; [apply execute_zero_voltage|]. split; [apply execute_nan_voltage|].
  intros Hv Hc Ho. unfold feed_forward_zeroed.
  rewrite (execute_nonzero_voltage _ _ (inf_not_zero _ Hv)).
  destruct (inject self); do 4 eexists; (split; [reflexivity|]);
    (split; [reflexivity|]); split; now apply div_inf.
Qed.

Lemma execute_feed_forward_unguarded_witness :
  execute __init__ (at_voltage zero) = Raise ZeroDivisionError /\
  (exists self' sent,
     execute __init__ (at_voltage nan) = Ok (self', sent) /\
     feed_forwards sent = [nan; nan]) /\
  feed_forward_zeroed (tuned (of_int 100) (of_int 100)) (at_voltage infinity).
Proof.
  split; [|split].
  - apply (proj1 (execute_feed_forward_unguarded __init__ (at_voltage zero))).
    reflexivity.
  - apply (proj1 (proj2
      (execute_feed_forward_unguarded __init__ (at_voltage nan)))).
    reflexivity.
  - apply (proj2 (proj2
      (execute_feed_forward_unguarded
         (tuned (of_int 100) (of_int 100)) (at_voltage infinity))));
      vm_compute; reflexivity.
Defined.

(** At a supply voltage of 0.0 the cycle raises instead of sending a zero
    feedforward, and at a NaN supply voltage the feedforward sent is NaN. *)
Lemma feed_forward_guard_counterexample :
  ~ feed_forward_zeroed __init__ (at_voltage zero) /\
  ~ feed_forward_zeroed __init__ (at_voltage nan).
Proof.
  split; intros (self' & sent & a & b & E & F & Za & Zb).
  - rewrite execute_zero_voltage in E by reflexivity. discriminate.
  - destruct (execute_nan_voltage __init__ (at_voltage nan) eq_refl)
      as (self1 & sent1 & E1 & F1).
    rewrite E1 in E. injection E as <- <-.
    rewrite F1 in F. injection F as <- <-. discriminate.
Qed.

(** C8: with a target of exactly zero (of either sign) and a finite,
    nonzero supply voltage, the control cycle completes and the
    feedforward it sends to that motor is exactly zero, not NaN. *)
Theorem execute_zero_target_feed_forward (self : Shooter) (hw : readings) :
  is_finite (input_voltage hw) = true ->
  is_zero (input_voltage hw) = false ->
  exists self' sent centre_ff outer_ff,
    execute self hw = Ok (self', sent) /\
    feed_forwards sent = [centre_ff; outer_ff] /\
    (is_zero (centre_target self) = true -> is_zero centre_ff = true) /\
    (is_zero (outer_target self) = true -> is_zero outer_ff = true).
Proof.
  intros Hf Hz. rewrite (execute_nonzero_voltage _ _ Hz).
  destruct (inject self); do 4 eexists; (split; [reflexivity|]);
    (split; [reflexivity|]); split; intros Ht;
    apply div_zero_finite; trivial; apply calculate_zero; trivial.
Qed.

Lemma execute_zero_target_feed_forward_witness :
  exists self' sent centre_ff outer_ff,
    execute __init__ (at_voltage (of_int 12)) = Ok (self', sent) /\
    feed_forwards sent = [centre_ff; outer_ff] /\
    is_zero centre_ff = true /\ is_zero outer_ff = true.
Proof.
  destruct (execute_zero_target_feed_forward
              __init__ (at_voltage (of_int 12)) eq_refl eq_refl)
    as (self' & sent & centre_ff & outer_ff & E & F & Hc & Ho).
  exists self', sent, centre_ff, outer_ff.
  split; [exact E|]. split; [exact F|].
  split; [apply Hc | apply Ho]; reflexivity.
Defined.

(** ** The velocity set-point *)

(** C2, as the code has it: whenever the supply voltage is not zero, the
    control cycle completes and the set-point it sends to each motor is
    that motor's target multiplied by [RPS_TO_CTRE_UNITS], which is
    2048 / 10 = 204.8 encoder counts per 100 ms for one revolution per
    second. *)
Theorem execute_setpoint_scaled (self : Shooter) (hw : readings) :
  is_zero (input_voltage hw) = false ->
  exists self' centre_ff outer_ff rest,
    execute self hw =
      Ok (self',
          Set_velocity centre_motor
            (centre_target self * RPS_TO_CTRE_UNITS)%float centre_ff
          :: Set_velocity outer_motor
               (outer_target self * RPS_TO_CTRE_UNITS)%float outer_ff
          :: rest) /\
    setpoints rest = [] /\
    RPS_TO_CTRE_UNITS = decimal 2048 1.
Proof.
  intros Hv. rewrite (execute_nonzero_voltage _ _ Hv).
  destruct (inject self); do 4 eexists; repeat split; reflexivity.
Qed.

Lemma execute_setpoint_scaled_witness :
  exists self' centre_ff outer_ff rest,
    execute (tuned (of_int 1) (of_int 1)) (at_voltage (of_int 12)) =
      Ok (self',
          Set_velocity centre_motor
            (of_int 1 * RPS_TO_CTRE_UNITS)%float centre_ff
          :: Set_velocity outer_motor
               (of_int 1 * RPS_TO_CTRE_UNITS)%float outer_ff
          :: rest) /\
    setpoints rest = [] /\
    RPS_TO_CTRE_UNITS = decimal 2048 1.
Proof.
  apply (execute_setpoint_scaled
           (tuned (of_int 1) (of_int 1)) (at_voltage (of_int 12))).
  reflexivity.
Defined.

(** With both targets at 1 revolution per second the set-points sent are
    204.8, not 1. *)
Lemma setpoint_unchanged_counterexample :
  exists self' sent,
    execute (tuned (of_int 1) (of_int 1)) (at_voltage (of_int 12))
      = Ok (self', sent) /\
    setpoints sent = [decimal 2048 1; decimal 2048 1] /\
    setpoints sent <> [of_int 1; of_int 1].
Proof.
  rewrite execute_nonzero_voltage by reflexivity.
  cbn [inject tuned]. do 2 eexists. split; [reflexivity|].
  split; [vm_compute; reflexivity | vm_compute; discriminate].
Qed.

(** ** Distance to target velocities *)

(** At a sample of the table the interpolation of the pair of samples that
    starts there is the sample's own value. *)
Ltac at_sample j E dist :=
  destruct j as [|j];
  [ apply eqb_zero in E; destruct dist as [[|]| | |]; try discriminate;
    vm_compute; reflexivity
  | do 4 (destruct j as [|j];
          [apply eqb_eq in E; [subst dist; vm_compute|]; reflexivity|]);
    cbn [length map] in *; lia ].

(** C3: for every distance between the first and the last distance of the
    table, both included, [set_range] sets [in_range] to true, and both
    targets are the linear interpolation, in binary64 arithmetic, between
    two adjacent samples of the table that bracket the distance.  At a
    distance of the table the targets are that sample's velocities, and at
    distance 7.5, between the samples (7, 880) and (8, 1120), the centre
    target is 1000. *)
Theorem set_range_in_table (self : Shooter) :
  (forall dist : float,
     (hd nan ranges <=? dist)%float = true ->
     (dist <=? last ranges nan)%float = true ->
     in_range (set_range self dist) = true /\
     exists j : nat,
       (S j < length ranges)%nat /\
       (sample ranges j <=? dist)%float = true /\
       (dist <=? sample ranges (S j))%float = true /\
       centre_target (set_range self dist) =
         lerp dist (sample ranges j) (sample centre_rpms j)
                   (sample ranges (S j)) (sample centre_rpms (S j)) /\
       outer_target (set_range self dist) =
         lerp dist (sample ranges j) (sample outer_rpms j)
                   (sample ranges (S j)) (sample outer_rpms (S j))) /\
  (forall j : nat,
     (j < length ranges)%nat ->
     in_range (set_range self (sample ranges j)) = true /\
     centre_target (set_range self (sample ranges j)) = sample centre_rpms j /\
     outer_target (set_range self (sample ranges j)) = sample outer_rpms j) /\
  centre_target (set_range self (decimal 75 1)) = of_int 1000.
Proof.
  split; [|split; [|vm_compute; reflexivity]];
    [|intros j Hj;
      do 6 (destruct j as [|j]; [vm_compute; repeat split; reflexivity|]);
      cbn [length ranges map] in Hj; lia].
  intros dist Hlo Hhi.
  unfold set_range. rewrite Hlo, Hhi.
  cbn [andb in_range centre_target outer_target].
  split; [reflexivity|].
  destruct (leb_not_nan _ _ Hlo) as [_ Hnan].
  set (xs := map of_int [7; 8; 9; 10; 11]).
  change ranges with (of_int 0 :: xs) in *.
  change (hd nan (of_int 0 :: xs)) with (of_int 0) in Hlo.
  pose proof (interp_in_table dist (of_int 0) xs centre_rpms Hlo Hhi) as [Hj Hc].
  pose proof (interp_in_table dist (of_int 0) xs outer_rpms Hlo Hhi) as [_ Ho].
  pose proof (search_range dist xs 0) as R.
  set (j := search dist xs 0) in *. clearbody j.
  destruct Hc as [[Ec Hc]|[Lc [Sc Hc]]], Ho as [[Eo Ho]|[Lo [So Ho]]];
    try (exfalso; subst xs; cbn [length map] in *; lia).
  - (* the distance is the last sample *)
    assert (j = 5%nat) by (subst xs; cbn [length map] in *; lia). subst j.
    subst xs. cbn [nth map] in Hj.
    assert (dist = of_int 11) by (now apply leb_antisym). subst dist.
    exists 4%nat. rewrite Hc, Ho. vm_compute. repeat split; reflexivity.
  - (* the distance is at or after sample j and before sample j + 1 *)
    rewrite Hc, Ho. clear Hc Ho. exists j.
    assert (Hup : (dist <=? nth (S j) (of_int 0 :: xs) nan)%float = true).
    { apply ltb_leb, not_leb_ltb; trivial.
      subst xs. cbn [length map] in *.
      do 5 (destruct j as [|j]; [reflexivity|]). lia. }
    subst xs. cbn [length map] in *. unfold sample.
    repeat split; try assumption; try lia;
      (match goal with
       | |- (if ?b then _ else _) = _ => destruct b eqn:E
       end; [at_sample j E dist | apply linear_piece_lerp]).
Qed.

Lemma set_range_in_table_witness :
  in_range (set_range __init__ (decimal 75 1)) = true /\
  exists j : nat,
    (S j < length ranges)%nat /\
    (sample ranges j <=? decimal 75 1)%float = true /\
    (decimal 75 1 <=? sample ranges (S j))%float = true /\
    centre_target (set_range __init__ (decimal 75 1)) =
      lerp (decimal 75 1) (sample ranges j) (sample centre_rpms j)
           (sample ranges (S j)) (sample centre_rpms (S j)) /\
    outer_target (set_range __init__ (decimal 75 1)) =
      lerp (decimal 75 1) (sample ranges j) (sample outer_rpms j)
           (sample ranges (S j)) (sample outer_rpms (S j)).
Proof.
  apply (proj1 (set_range_in_table __init__) (decimal 75 1));
    vm_compute; reflexivity.
Defined.

(** C4: for every distance strictly below the first distance of the table,
    [set_range] sets [in_range] to false and both targets to the first
    sample's velocities; for every distance strictly above the last one, it
    sets [in_range] to false and both targets to the last sample's
    velocities. *)
Theorem set_range_outside_table (self : Shooter) (dist : float) :
  ((dist <? hd nan ranges)%float = true ->
   in_range (set_range self dist) = false /\
   centre_target (set_range self dist) = hd nan centre_rpms /\
   outer_target (set_range self dist) = hd nan outer_rpms) /\
  ((last ranges nan <? dist)%float = true ->
   in_range (set_range self dist) = false /\
   centre_target (set_range self dist) = last centre_rpms nan /\
   outer_target (set_range self dist) = last outer_rpms nan).
Proof.
  split; intros H; unfold set_range.
  - rewrite (ltb_not_leb _ _ H). cbn [andb].
    unfold Py.max. rewrite H.
    replace (Py.min (last ranges nan) (hd nan ranges)) with (hd nan ranges)
      by (vm_compute; reflexivity).
    cbn [in_range centre_target outer_target].
    repeat split; vm_compute; reflexivity.
  - rewrite (ltb_not_leb _ _ H), andb_false_r.
    assert (E : (dist <? hd nan ranges)%float = false)
      by (apply (ltb_trans_zero (last ranges nan)); [reflexivity | exact H]).
    unfold Py.max. rewrite E.
    unfold Py.min. rewrite (leb_not_ltb _ _ (ltb_leb _ _ H)).
    cbn [in_range centre_target outer_target].
    repeat split; vm_compute; reflexivity.
Qed.

Lemma set_range_outside_table_witness :
  (in_range (set_range __init__ (of_int (-1))) = false /\
   centre_target (set_range __init__ (of_int (-1))) = hd nan centre_rpms /\
   outer_target (set_range __init__ (of_int (-1))) = hd nan outer_rpms) /\
  (in_range (set_range __init__ (of_int 12)) = false /\
   centre_target (set_range __init__ (of_int 12)) = last centre_rpms nan /\
   outer_target (set_range __init__ (of_int 12)) = last outer_rpms nan).
Proof.
  split.
  - apply (proj1 (set_range_outside_table __init__ (of_int (-1)))).
    vm_compute; reflexivity.
  - apply (proj2 (set_range_outside_table __init__ (of_int 12))).
    vm_compute; reflexivity.
Defined.

(** C9: for every distance, [set_range] leaves the pending fire request
    [inject] and the velocity tolerance as they were; it writes the two
    targets and [in_range] only. *)
Theorem set_range_frame (self : Shooter) (dist : float) :
  inject (set_range self dist) = inject self /\
  velocity_tolerance (set_range self dist) = velocity_tolerance self.
Proof.
  unfold set_range.
  destruct ((hd nan ranges <=? dist)%float && (dist <=? last ranges nan)%float);
    split; reflexivity.
Qed.

(** ** Speed tracking and readiness *)

(** X18: for targets that are not negative, [is_at_speed] is true if and
    only if, for each of the two flywheels,
    [|target - measured| <= |target| * tolerance], where the tolerance is
    the one kept in the component, 0.05 from [__init__]; an error equal to
    the bound is accepted. *)
Theorem is_at_speed_nonnegative_targets (self : Shooter) (hw : readings) :
  (zero <=? centre_target self)%float = true ->
  (zero <=? outer_target self)%float = true ->
  (is_at_speed self hw = true <->
   within_tolerance (centre_target self) (get_centre_velocity hw)
     (velocity_tolerance self) = true /\
   within_tolerance (outer_target self) (get_outer_velocity hw)
     (velocity_tolerance self) = true) /\
  (abs (centre_target self - get_centre_velocity hw)
     = (abs (centre_target self) * velocity_tolerance self)%float ->
   abs (outer_target self - get_outer_velocity hw)
     = (abs (outer_target self) * velocity_tolerance self)%float ->
   is_nan (abs (centre_target self - get_centre_velocity hw)) = false ->
   is_nan (abs (outer_target self - get_outer_velocity hw)) = false ->
   is_at_speed self hw = true) /\
  velocity_tolerance __init__ = decimal 5 2.
Proof.
  intros Hc Ho. unfold is_at_speed, within_tolerance.
  rewrite (tolerance_signed_magnitude _ _ (velocity_tolerance self) Hc).
  rewrite (tolerance_signed_magnitude _ _ (velocity_tolerance self) Ho).
  rewrite andb_true_iff. split; [tauto|]. split; [|reflexivity].
  intros Ec Eo Nc No. rewrite <- Ec, <- Eo. now rewrite !leb_refl.
Qed.

Lemma is_at_speed_nonnegative_targets_witness :
  is_at_speed (tuned (of_int 100) (of_int 100)) (spinning 19456 21504) = true.
Proof.
  apply (proj1 (proj2
    (is_at_speed_nonnegative_targets
       (tuned (of_int 100) (of_int 100)) (spinning 19456 21504)
       eq_refl eq_refl)));
    vm_compute; reflexivity.
Defined.

(** C5, where the code departs from it: with both targets at -100 and both
    flywheels measured at exactly -100, every error is 0 and within 5 % of
    the magnitude 100, so the shooter is spinning at the set speed, yet
    [is_at_speed] is false.  The bound of the code is
    [target * velocity_tolerance], here -5, without the magnitude of the
    target. *)
Lemma is_at_speed_magnitude_counterexample :
  is_at_speed (tuned (of_int (-100)) (of_int (-100)))
              (spinning (-20480) (-20480)) = false /\
  get_centre_velocity (spinning (-20480) (-20480)) = of_int (-100) /\
  get_outer_velocity (spinning (-20480) (-20480)) = of_int (-100) /\
  within_tolerance (of_int (-100)) (of_int (-100)) (decimal 5 2) = true.
Proof. vm_compute. repeat split; reflexivity. Qed.

(** C10: when [is_at_speed] is true and a flywheel's target is exactly
    zero, as both targets are at startup, that flywheel's measured velocity
    is exactly zero. *)
Theorem is_at_speed_zero_target (self : Shooter) (hw : readings) :
  is_at_speed self hw = true ->
  (is_zero (centre_target self) = true ->
   is_zero (get_centre_velocity hw) = true) /\
  (is_zero (outer_target self) = true ->
   is_zero (get_outer_velocity hw) = true).
Proof.
  unfold is_at_speed. rewrite andb_true_iff. intros [Hc Ho].
  split; intros Hz; eapply zero_target_window; eassumption.
Qed.

Lemma is_at_speed_zero_target_witness :
  is_zero (get_centre_velocity (at_voltage (of_int 12))) = true /\
  is_zero (get_outer_velocity (at_voltage (of_int 12))) = true.
Proof.
  split.
  - apply (proj1 (is_at_speed_zero_target __init__ (at_voltage (of_int 12))
                    eq_refl)).
    reflexivity.
  - apply (proj2 (is_at_speed_zero_target __init__ (at_voltage (of_int 12))
                    eq_refl)).
    reflexivity.
Defined.

(** C6: [is_ready] is true if and only if [in_range] is true, each of the
    two flywheels is within the tolerance of its target, and the loading
    piston is not out; so it is false as soon as one of the three fails. *)
Theorem is_ready_iff (self : Shooter) (hw : readings) :
  is_ready self hw = true <->
  in_range self = true /\
  (abs (centre_target self - get_centre_velocity hw)
     <=? centre_target self * velocity_tolerance self)%float = true /\
  (abs (outer_target self - get_outer_velocity hw)
     <=? outer_target self * velocity_tolerance self)%float = true /\
  piston hw = false.
Proof.
  unfold is_ready, is_in_range, is_at_speed, is_firing.
  rewrite !andb_true_iff, negb_true_iff. tauto.
Qed.

(** ** The firing sequence *)

(** C7, for cycles that complete: from a state with no request pending, a
    call of [fire] followed by a control cycle whose supply voltage is not
    zero sends exactly one [startPulse] and clears the request; a second
    such cycle with no call of [fire] in between sends none. *)
Theorem fire_then_execute (self : Shooter) (hw1 hw2 : readings) :
  inject self = false ->
  is_zero (input_voltage hw1) = false ->
  is_zero (input_voltage hw2) = false ->
  exists self1 sent1 self2 sent2,
    execute (fire self) hw1 = Ok (self1, sent1) /\
    pulses sent1 = 1%nat /\ inject self1 = false /\
    execute self1 hw2 = Ok (self2, sent2) /\
    pulses sent2 = 0%nat /\ inject self2 = false.
Proof.
  intros _ H1 H2.
  rewrite (execute_nonzero_voltage _ _ H1). cbn [fire inject].
  do 4 eexists.
  split; [reflexivity|]. split; [reflexivity|]. split; [reflexivity|].
  rewrite (execute_nonzero_voltage _ _ H2). cbn [inject].
  split; [reflexivity|]. split; reflexivity.
Qed.

Lemma fire_then_execute_witness :
  exists self1 sent1 self2 sent2,
    execute (fire __init__) (at_voltage (of_int 12)) = Ok (self1, sent1) /\
    pulses sent1 = 1%nat /\ inject self1 = false /\
    execute self1 (at_voltage (of_int 12)) = Ok (self2, sent2) /\
    pulses sent2 = 0%nat /\ inject self2 = false.
Proof.
  apply (fire_then_execute __init__
           (at_voltage (of_int 12)) (at_voltage (of_int 12)));
    reflexivity.
Defined.

(** With the supply voltage read as 0.0, the cycle after [fire] raises
    before it reaches the piston: no pulse is sent and the request stays
    pending. *)
Lemma fire_then_execute_counterexample :
  inject __init__ = false /\
  execute (fire __init__) (at_voltage zero) = Raise ZeroDivisionError /\
  inject (fire __init__) = true.
Proof. repeat split; reflexivity. Qed.

(** * Further properties of the component *)

(** ** Rounding keeps the sign and never makes a NaN *)

Module RoundingFacts.

Lemma shr_1_nonneg (mrs : shr_record) :
  0 <= shr_m mrs -> 0 <= shr_m (shr_1 mrs).
Proof.
  destruct mrs as [m r s]. simpl.
  destruct m as [|p|p]; [| |lia]; try destruct p; simpl; lia.
Qed.

Lemma iter_shr_1_nonneg (p : positive) (mrs : shr_record) :
  0 <= shr_m mrs -> 0 <= shr_m (iter_pos shr_1 p mrs).
Proof.
  revert mrs. induction p as [p IH|p IH|]; intros mrs H; simpl.
  - apply IH, IH, shr_1_nonneg, H.
  - apply IH, IH, H.
  - apply shr_1_nonneg, H.
Qed.

Lemma shr_fexp_nonneg (m e : Z) (l : location) :
  0 <= m -> 0 <= shr_m (fst (shr_fexp prec emax m e l)).
Proof.
  intros H. unfold shr_fexp, shr.
  assert (H0 : 0 <= shr_m (shr_record_of_loc m l))
    by (destruct l as [|[ | | ]]; exact H).
  destruct (fexp prec emax (Zdigits2 m + e) - e); simpl; trivial.
  now apply iter_shr_1_nonneg.
Qed.

Lemma round_nearest_even_nonneg (m : Z) (l : location) :
  0 <= m -> 0 <= round_nearest_even m l.
Proof.
  intros H. destruct l as [|[ | | ]]; simpl; try lia.
  destruct (Z.even m); lia.
Qed.

(** Rounding a non-negative mantissa gives a zero, a finite float or an
    infinity of the sign asked for, never NaN. *)
Lemma binary_round_aux_signed (sx : bool) (mx ex : Z) (lx : location) :
  0 <= mx ->
  match binary_round_aux prec emax sx mx ex lx with
  | S754_zero s | S754_infinity s | S754_finite s _ _ => s = sx
  | S754_nan => False
  end.
Proof.
  intros H. unfold binary_round_aux.
  pose proof (shr_fexp_nonneg mx ex lx H) as H1.
  destruct (shr_fexp prec emax mx ex lx) as [mrs' e']. simpl in H1.
  pose proof (shr_fexp_nonneg _ e' loc_Exact
                (round_nearest_even_nonneg _ (loc_of_shr_record mrs') H1)) as H2.
  destruct (shr_fexp prec emax
              (round_nearest_even (shr_m mrs') (loc_of_shr_record mrs'))
              e' loc_Exact) as [mrs'' e'']. simpl in H2.
  destruct (shr_m mrs'') as [|p|p]; [reflexivity| |lia].
  destruct (e'' <=? emax - prec); reflexivity.
Qed.

Lemma binary_round_signed (sx : bool) (mx : positive) (ex : Z) :
  match binary_round prec emax sx mx ex with
  | S754_zero s | S754_infinity s | S754_finite s _ _ => s = sx
  | S754_nan => False
  end.
Proof.
  unfold binary_round.
  destruct (shl_align mx ex (fexp prec emax (Z.pos (digits2_pos mx) + ex)))
    as [mz ez].
  apply binary_round_aux_signed. lia.
Qed.

Lemma binary_normalize_not_nan (m e : Z) (szero : bool) :
  is_nan (binary_normalize prec emax m e szero) = false.
Proof.
  destruct m as [|p|p]; simpl; [reflexivity| |].
  - pose proof (binary_round_signed false p e) as H.
    destruct (binary_round prec emax false p e); trivial. contradiction.
  - pose proof (binary_round_signed true p e) as H.
    destruct (binary_round prec emax true p e); trivial. contradiction.
Qed.

(** The float of an int is a zero or has the int's sign; only the int 0
    can give a zero of unknown origin. *)
Lemma of_int_sign (z : Z) :
  match of_int z with
  | S754_zero _ => True
  | S754_infinity s | S754_finite s _ _ => s = (z <? 0) /\ z <> 0
  | S754_nan => False
  end.
Proof.
  unfold of_int. destruct z as [|p|p]; simpl.
  - trivial.
  - pose proof (binary_round_signed false p 0) as H.
    destruct (binary_round prec emax false p 0); subst; auto; split; auto; lia.
  - pose proof (binary_round_signed true p 0) as H.
    destruct (binary_round prec emax true p 0); subst; auto; split; auto; lia.
Qed.

Lemma mul_not_nan (x y : float) :
  is_nan x = false -> is_nan y = false ->
  is_zero x && is_inf y = false -> is_inf x && is_zero y = false ->
  is_nan (x * y)%float = false.
Proof.
  destruct x as [s| s| |s m e], y as [s'| s'| |s' m' e']; simpl;
    try discriminate; try reflexivity.
  intros _ _ _ _.
  pose proof (binary_round_aux_signed (xorb s s') (Z.pos (m * m')) (e + e')
                loc_Exact ltac:(lia)) as H.
  unfold mul, SFmul.
  destruct (binary_round_aux prec emax (xorb s s') (Z.pos (m * m')) (e + e')
              loc_Exact);
    trivial. contradiction.
Qed.

(** A product with a finite nonzero constant is NaN only for a NaN factor. *)
Lemma mul_const_nan (x c : float) :
  is_finite c = true -> is_zero c = false -> is_nan (x * c)%float = is_nan x.
Proof.
  intros Hf Hz. destruct (is_nan x) eqn:Hx.
  - destruct x; try discriminate. reflexivity.
  - apply mul_not_nan; trivial;
      destruct c; try discriminate; destruct x; reflexivity.
Qed.

Lemma add_not_nan (x y : float) :
  is_nan x = false -> is_nan y = false ->
  is_inf x && is_inf y = false ->
  is_nan (x + y)%float = false.
Proof.
  destruct x as [s| s| |s m e], y as [s'| s'| |s' m' e']; simpl;
    try discriminate; try reflexivity;
    try (destruct s, s'; reflexivity).
  intros _ _ _. apply binary_normalize_not_nan.
Qed.

Lemma div_not_nan (x v : float) :
  is_nan x = false -> is_finite v = true -> is_zero v = false ->
  is_nan (x / v)%float = false.
Proof.
  destruct x as [s| s| |s m e], v as [s'| s'| |s' m' e']; simpl;
    try discriminate; try reflexivity.
  intros _ _ _. unfold div, SFdiv, SFdiv_core_binary.
  set (m1 := match _ with Z.pos _ => _ | _ => _ end).
  assert (H1 : 0 <= m1).
  { subst m1.
    match goal with |- 0 <= match ?s with _ => _ end => destruct s end;
      try lia. apply Z.shiftl_nonneg. lia. }
  pose proof (Z_div_mod m1 (Z.pos m') ltac:(lia)) as D.
  destruct (Z.div_eucl m1 (Z.pos m')) as [q r].
  assert (Hq : 0 <= q) by nia.
  match goal with
  | |- is_nan (binary_round_aux _ _ ?s ?m ?e ?l) = false =>
      pose proof (binary_round_aux_signed s m e l Hq) as H;
      destruct (binary_round_aux prec emax s m e l); trivial; contradiction
  end.
Qed.

(** Scaling a reading by a positive finite constant keeps its sign. *)
Lemma reading_scaled_sign (z : Z) (m : positive) (e : Z) :
  let v := (of_int z * S754_finite false m e)%float in
  is_nan v = false /\
  (z = 0 -> is_zero v = true) /\
  ((zero <? v)%float = true -> 0 < z) /\
  ((v <? zero)%float = true -> z < 0).
Proof.
  intros v. subst v. pose proof (of_int_sign z) as H.
  destruct (of_int z) as [s|s| |s m' e'] eqn:E; [| | contradiction |].
  - destruct s; repeat split; discriminate.
  - destruct H as [-> Hz]. unfold mul, SFmul. rewrite xorb_false_r.
    destruct (Z.ltb_spec z 0); repeat split; try discriminate; try lia.
  - destruct H as [-> Hz]. unfold mul, SFmul. rewrite xorb_false_r.
    pose proof (binary_round_aux_signed (z <? 0) (Z.pos (m' * m)) (e' + e)
                  loc_Exact ltac:(lia)) as H.
    destruct (binary_round_aux prec emax (z <? 0) (Z.pos (m' * m)) (e' + e)
                loc_Exact)
      as [s|s| |s m'' e'']; [| |contradiction|]; subst s;
      destruct (Z.ltb_spec z 0); repeat split; try discriminate; try lia.
Qed.

End RoundingFacts.

Import RoundingFacts.

(** ** More facts about comparison *)

Lemma not_ltb_leb (x y : float) :
  is_nan x = false -> is_nan y = false ->
  (x <? y)%float = false -> (y <=? x)%float = true.
Proof.
  unfold ltb, leb, SFltb, SFleb. rewrite (compare_antisym x y).
  intros Hx Hy.
  assert (H : SFcompare x y <> None).
  { destruct x, y; simpl in *; discriminate. }
  destruct (SFcompare x y) as [[ | | ]|]; simpl; congruence.
Qed.

Lemma ltb_not_nan (x y : float) :
  (x <? y)%float = true -> is_nan x = false /\ is_nan y = false.
Proof.
  unfold ltb, SFltb. destruct x, y; simpl; try discriminate; auto.
Qed.

(** A magnitude is below a bound only if the bound is not negative. *)
Lemma abs_leb_bound (x y : float) :
  (abs x <=? y)%float = true -> (zero <=? y)%float = true.
Proof.
  destruct x as [s| s| |s m e], y as [s'| s'| |s' m' e']; simpl;
    try discriminate; try reflexivity; destruct s'; try discriminate;
    reflexivity.
Qed.

Lemma sub_diag (x : float) : is_finite x = true -> abs (x - x)%float = zero.
Proof.
  destruct x as [s| s| |s m e]; try discriminate; intros _.
  - destruct s; reflexivity.
  - unfold sub, SFsub. now rewrite Z.sub_diag.
Qed.

(** ** Helper facts about the operations *)

Lemma set_range_in_range (self : Shooter) (dist : float) :
  in_range (set_range self dist) =
  ((hd nan ranges <=? dist) && (dist <=? last ranges nan))%float.
Proof.
  unfold set_range.
  destruct ((hd nan ranges <=? dist)%float && (dist <=? last ranges nan)%float);
    reflexivity.
Qed.

Lemma set_range_pending (self : Shooter) (dist : float) :
  inject (set_range self dist) = inject self.
Proof.
  unfold set_range.
  destruct ((hd nan ranges <=? dist)%float && (dist <=? last ranges nan)%float);
    reflexivity.
Qed.

Lemma pulses_app (a b : list command) :
  pulses (a ++ b) = (pulses a + pulses b)%nat.
Proof. unfold pulses. now rewrite filter_app, length_app. Qed.

Lemma setpoints_app (a b : list command) :
  setpoints (a ++ b) = setpoints a ++ setpoints b.
Proof. unfold setpoints. apply flat_map_app. Qed.

Lemma powered_cons (c : call) (rest : list call) :
  powered (c :: rest) =
  match c with
  | Call_execute hw => negb (is_zero (input_voltage hw))
  | _ => true
  end && powered rest.
Proof. reflexivity. Qed.

(** What one completed control cycle does to the request and sends. *)
Lemma execute_step (self : Shooter) (hw : readings) :
  is_zero (input_voltage hw) = false ->
  exists self' sent,
    execute self hw = Ok (self', sent) /\
    inject self' = false /\
    pulses sent = pending self /\
    length (setpoints sent) = 2%nat.
Proof.
  intros Hz. rewrite (execute_nonzero_voltage _ _ Hz). cbv zeta.
  unfold pending.
  destruct self as [inj r tol ot ct]. cbn [inject].
  destruct inj; do 2 eexists; (split; [reflexivity|]); repeat split.
Qed.

Lemma sgn_cases (v : float) :
  sgn v = of_int 1 \/ sgn v = of_int (-1) \/ sgn v = zero.
Proof.
  unfold sgn. destruct (zero <? v)%float; auto. destruct (v <? zero)%float; auto.
Qed.

(** With finite gains whose static term stays finite, the feedforward model
    gives a voltage that is not NaN for a velocity that is not NaN. *)
Lemma calculate_not_nan (c : SimpleMotorFeedforward) (v : float) :
  is_finite (kS c) = true -> is_finite (kV c) = true -> is_zero (kV c) = false ->
  is_finite (kS c * of_int 1)%float = true ->
  is_finite (kS c * of_int (-1))%float = true ->
  is_nan v = false -> is_nan (calculate c v) = false.
Proof.
  intros Hs Hv Hvz H1 H2 Hn. unfold calculate.
  assert (Hstatic : is_finite (kS c * sgn v)%float = true).
  { destruct (sgn_cases v) as [->|[->| ->]]; trivial.
    destruct (kS c); try discriminate; reflexivity. }
  apply add_not_nan.
  - destruct (kS c * sgn v)%float; try discriminate; reflexivity.
  - rewrite mul_comm, mul_const_nan; trivial.
  - destruct (kS c * sgn v)%float; try discriminate; reflexivity.
Qed.

(** ** Ranging *)

(** X1: whatever the distance, NaN and the infinities included, the
    targets left by [set_range] are those of a distance inside the table:
    the distance itself when it is in range, the first distance of the
    table when it is below, the last one when it is above or NaN. *)
Theorem set_range_clamped (self : Shooter) (dist : float) :
  exists d : float,
    (hd nan ranges <=? d)%float = true /\
    (d <=? last ranges nan)%float = true /\
    centre_target (set_range self dist) = centre_target (set_range self d) /\
    outer_target (set_range self dist) = outer_target (set_range self d) /\
    (in_range (set_range self dist) = true -> d = dist) /\
    ((dist <? hd nan ranges)%float = true -> d = hd nan ranges) /\
    ((last ranges nan <? dist)%float = true -> d = last ranges nan) /\
    (is_nan dist = true -> d = last ranges nan).
Proof.
  destruct ((hd nan ranges <=? dist)%float && (dist <=? last ranges nan)%float)
    eqn:Hin.
  - exists dist. apply andb_true_iff in Hin as [Hlo Hhi].
    destruct (leb_not_nan _ _ Hlo) as [_ Hn].
    repeat split; trivial.
    + intros H. rewrite (leb_not_ltb _ _ Hlo) in H. discriminate.
    + intros H. rewrite (leb_not_ltb _ _ Hhi) in H. discriminate.
    + intros Hn'. congruence.
  - assert (Hflag := set_range_in_range self dist). rewrite Hin in Hflag.
    assert (Hd : exists d,
               Py.min (last ranges nan) (Py.max dist (hd nan ranges)) = d /\
               (hd nan ranges <=? d)%float = true /\
               (d <=? last ranges nan)%float = true /\
               ((dist <? hd nan ranges)%float = true -> d = hd nan ranges) /\
               ((last ranges nan <? dist)%float = true ->
                d = last ranges nan) /\
               (is_nan dist = true -> d = last ranges nan)).
    { unfold Py.max.
      destruct (dist <? hd nan ranges)%float eqn:Hlt.
      - exists (hd nan ranges). repeat split.
        + intros H.
          assert (E : (dist <? hd nan ranges)%float = false)
            by (apply (ltb_trans_zero (last ranges nan));
                [reflexivity | exact H]).
          congruence.
        + destruct (ltb_not_nan _ _ Hlt) as [Hn _]. congruence.
      - unfold Py.min. destruct (dist <? last ranges nan)%float eqn:Hlt'.
        + exfalso. destruct (ltb_not_nan _ _ Hlt') as [Hn _].
          rewrite (not_ltb_leb dist (hd nan ranges) Hn eq_refl Hlt),
            (ltb_leb _ _ Hlt') in Hin.
          discriminate.
        + exists (last ranges nan). repeat split. discriminate. }
    destruct Hd as (d & Ed & Hlo & Hhi & Hbelow & Habove & Hnan).
    exists d. split; [exact Hlo|]. split; [exact Hhi|].
    assert (Ht : centre_target (set_range self dist)
                   = centre_target (set_range self d) /\
                 outer_target (set_range self dist)
                   = outer_target (set_range self d)).
    { unfold set_range. rewrite Hin, Ed, Hlo, Hhi. split; reflexivity. }
    destruct Ht as [Hc Ho]. repeat split; trivial.
    intros H. rewrite Hflag in H. discriminate.
Qed.

Lemma set_range_clamped_witness :
  exists d : float,
    (hd nan ranges <=? d)%float = true /\
    (d <=? last ranges nan)%float = true /\
    centre_target (set_range __init__ infinity)
      = centre_target (set_range __init__ d) /\
    outer_target (set_range __init__ infinity)
      = outer_target (set_range __init__ d) /\
    d = last ranges nan.
Proof.
  destruct (set_range_clamped __init__ infinity)
    as (d & Hlo & Hhi & Hc & Ho & _ & _ & Habove & _).
  exists d. repeat split; trivial. apply Habove. reflexivity.
Defined.

(** X2: the state after [set_range] does not depend on earlier distances:
    ranging twice is ranging to the second distance. *)
Theorem set_range_last_wins (self : Shooter) (d1 d2 : float) :
  set_range (set_range self d1) d2 = set_range self d2.
Proof.
  unfold set_range.
  destruct ((hd nan ranges <=? d1)%float && (d1 <=? last ranges nan)%float),
           ((hd nan ranges <=? d2)%float && (d2 <=? last ranges nan)%float);
    reflexivity.
Qed.

(** X3: right after [set_range], [is_ready] can be true only for a
    distance inside the table; a clamped or NaN distance is never ready,
    whatever the flywheels and the piston do. *)
Theorem is_ready_after_set_range
  (self : Shooter) (dist : float) (hw : readings) :
  is_ready (set_range self dist) hw = true ->
  (hd nan ranges <=? dist)%float = true /\
  (dist <=? last ranges nan)%float = true /\
  is_nan dist = false.
Proof.
  unfold is_ready, is_in_range. rewrite !andb_true_iff, set_range_in_range.
  rewrite andb_true_iff. intros [[[Hlo Hhi] _] _].
  destruct (leb_not_nan _ _ Hlo). auto.
Qed.

Lemma is_ready_after_set_range_witness :
  (hd nan ranges <=? decimal 75 1)%float = true /\
  (decimal 75 1 <=? last ranges nan)%float = true /\
  is_nan (decimal 75 1) = false.
Proof.
  apply (is_ready_after_set_range __init__ (decimal 75 1)
           (spinning 204800 1024000)).
  vm_compute. reflexivity.
Defined.

(** X4: [fire] and [set_range] can be called in either order with the same
    resulting state, and a second [fire] changes nothing. *)
Theorem fire_set_range_commute (self : Shooter) (dist : float) :
  set_range (fire self) dist = fire (set_range self dist) /\
  fire (fire self) = fire self.
Proof.
  split; [|reflexivity]. unfold set_range, fire.
  destruct ((hd nan ranges <=? dist)%float && (dist <=? last ranges nan)%float);
    reflexivity.
Qed.

(** ** Speed tracking *)

(** X5: [is_at_speed] can be true only when both bounds
    [target * velocity_tolerance] are at least zero; with a negative or NaN
    bound the component never reports being at speed. *)
Theorem is_at_speed_bound (self : Shooter) (hw : readings) :
  is_at_speed self hw = true ->
  (zero <=? centre_target self * velocity_tolerance self)%float = true /\
  (zero <=? outer_target self * velocity_tolerance self)%float = true.
Proof.
  unfold is_at_speed. rewrite andb_true_iff.
  intros [Hc Ho]. split; eapply abs_leb_bound; eassumption.
Qed.

Lemma is_at_speed_bound_witness :
  (zero <=? of_int 100 * decimal 5 2)%float = true /\
  (zero <=? of_int 100 * decimal 5 2)%float = true.
Proof.
  apply (is_at_speed_bound (tuned (of_int 100) (of_int 100))
           (spinning 20480 20480)).
  vm_compute. reflexivity.
Defined.

(** X6: when both measured velocities equal their finite targets,
    [is_at_speed] is true exactly when both bounds
    [target * velocity_tolerance] are at least zero. *)
Theorem is_at_speed_exact_tracking (self : Shooter) (hw : readings) :
  get_centre_velocity hw = centre_target self ->
  get_outer_velocity hw = outer_target self ->
  is_finite (centre_target self) = true ->
  is_finite (outer_target self) = true ->
  is_at_speed self hw =
    ((zero <=? centre_target self * velocity_tolerance self)
     && (zero <=? outer_target self * velocity_tolerance self))%float.
Proof.
  intros Ec Eo Fc Fo. unfold is_at_speed. rewrite Ec, Eo.
  now rewrite !sub_diag.
Qed.

Lemma is_at_speed_exact_tracking_witness :
  is_at_speed (tuned (of_int 100) (of_int 5000)) (spinning 20480 1024000) =
    ((zero <=? of_int 100 * decimal 5 2)
     && (zero <=? of_int 5000 * decimal 5 2))%float.
Proof.
  apply (is_at_speed_exact_tracking (tuned (of_int 100) (of_int 5000))
           (spinning 20480 1024000));
    vm_compute; reflexivity.
Defined.

(** ** One control cycle *)

(** X8: [execute] raises [ZeroDivisionError] exactly when the supply
    voltage read is a zero, and completes exactly when it is not: NaN and
    infinite voltages do not make it raise. *)
Theorem execute_raises_iff (self : Shooter) (hw : readings) :
  (execute self hw = Raise ZeroDivisionError <->
   is_zero (input_voltage hw) = true) /\
  ((exists self' sent, execute self hw = Ok (self', sent)) <->
   is_zero (input_voltage hw) = false).
Proof.
  destruct (is_zero (input_voltage hw)) eqn:Hz.
  - rewrite (execute_zero_voltage _ _ Hz).
    split; split; trivial; try discriminate.
    intros (s & l & H). discriminate.
  - rewrite (execute_nonzero_voltage _ _ Hz). cbv zeta.
    destruct (inject self); (split; split; trivial; try discriminate);
      intros _; eauto.
Qed.

(** X9: a control cycle that completes changes nothing in the component
    but the fire request, which it clears; it sends one pulse if a request
    was pending and none otherwise, and [is_ready] answers as before. *)
Theorem execute_frame (self : Shooter) (hw : readings) :
  is_zero (input_voltage hw) = false ->
  exists self' sent,
    execute self hw = Ok (self', sent) /\
    inject self' = false /\
    in_range self' = in_range self /\
    velocity_tolerance self' = velocity_tolerance self /\
    centre_target self' = centre_target self /\
    outer_target self' = outer_target self /\
    pulses sent = pending self /\
    (forall hw', is_ready self' hw' = is_ready self hw').
Proof.
  intros Hz. rewrite (execute_nonzero_voltage _ _ Hz). cbv zeta.
  unfold pending.
  destruct self as [inj r tol ot ct]. cbn [inject].
  destruct inj; do 2 eexists; (split; [reflexivity|]); repeat split.
Qed.

Lemma execute_frame_witness :
  exists self' sent,
    execute (fire __init__) (at_voltage (of_int 12)) = Ok (self', sent) /\
    inject self' = false /\
    in_range self' = in_range (fire __init__) /\
    velocity_tolerance self' = velocity_tolerance (fire __init__) /\
    centre_target self' = centre_target (fire __init__) /\
    outer_target self' = outer_target (fire __init__) /\
    pulses sent = pending (fire __init__) /\
    (forall hw', is_ready self' hw' = is_ready (fire __init__) hw').
Proof.
  apply (execute_frame (fire __init__) (at_voltage (of_int 12))).
  reflexivity.
Defined.

(** X10: in a control cycle that completes, the set-point sent to a motor
    is NaN exactly when that motor's target is NaN. *)
Theorem execute_setpoint_nan (self : Shooter) (hw : readings) :
  is_zero (input_voltage hw) = false ->
  exists self' sent centre_sp outer_sp,
    execute self hw = Ok (self', sent) /\
    setpoints sent = [centre_sp; outer_sp] /\
    is_nan centre_sp = is_nan (centre_target self) /\
    is_nan outer_sp = is_nan (outer_target self).
Proof.
  intros Hz. rewrite (execute_nonzero_voltage _ _ Hz). cbv zeta.
  destruct (inject self); do 4 eexists; (split; [reflexivity|]);
    (split; [reflexivity|]); split; apply mul_const_nan; reflexivity.
Qed.

Lemma execute_setpoint_nan_witness :
  exists self' sent centre_sp outer_sp,
    execute (tuned nan (of_int 1)) (at_voltage (of_int 12))
      = Ok (self', sent) /\
    setpoints sent = [centre_sp; outer_sp] /\
    is_nan centre_sp = is_nan (centre_target (tuned nan (of_int 1))) /\
    is_nan outer_sp = is_nan (outer_target (tuned nan (of_int 1))).
Proof.
  apply (execute_setpoint_nan (tuned nan (of_int 1)) (at_voltage (of_int 12))).
  reflexivity.
Defined.

(** X11: with a finite, nonzero supply voltage and targets that are not
    NaN, the control cycle completes and neither feedforward value it sends
    is NaN (the feedforward model being the one of [calculate]). *)
Theorem execute_feed_forward_not_nan (self : Shooter) (hw : readings) :
  is_finite (input_voltage hw) = true ->
  is_zero (input_voltage hw) = false ->
  is_nan (centre_target self) = false ->
  is_nan (outer_target self) = false ->
  exists self' sent centre_ff outer_ff,
    execute self hw = Ok (self', sent) /\
    feed_forwards sent = [centre_ff; outer_ff] /\
    is_nan centre_ff = false /\ is_nan outer_ff = false.
Proof.
  intros Hf Hz Hc Ho. rewrite (execute_nonzero_voltage _ _ Hz). cbv zeta.
  destruct (inject self); do 4 eexists; (split; [reflexivity|]);
    (split; [reflexivity|]); split;
    apply div_not_nan; trivial; apply calculate_not_nan; trivial;
    vm_compute; reflexivity.
Qed.

Lemma execute_feed_forward_not_nan_witness :
  exists self' sent centre_ff outer_ff,
    execute (tuned infinity (of_int (-5000))) (at_voltage (of_int 12))
      = Ok (self', sent) /\
    feed_forwards sent = [centre_ff; outer_ff] /\
    is_nan centre_ff = false /\ is_nan outer_ff = false.
Proof.
  apply (execute_feed_forward_not_nan
           (tuned infinity (of_int (-5000))) (at_voltage (of_int 12)));
    reflexivity.
Defined.

(** ** Sequences of calls *)

(** X12: a sequence of calls raises [ZeroDivisionError] exactly when one of
    its control cycles reads a supply voltage of zero, and completes
    exactly when none does; [fire] and [set_range] never raise. *)
Theorem run_raises_iff (self : Shooter) (calls : list call) :
  (run self calls = Raise ZeroDivisionError <-> powered calls = false) /\
  ((exists self' sent, run self calls = Ok (self', sent)) <->
   powered calls = true).
Proof.
  revert self. induction calls as [|c rest IH]; intros self.
  - simpl. split; split; try discriminate; eauto.
  - rewrite powered_cons. destruct c as [|dist|hw]; cbn [run andb].
    + apply IH.
    + apply IH.
    + destruct (is_zero (input_voltage hw)) eqn:Hz; cbn [negb andb].
      * rewrite (execute_zero_voltage _ _ Hz). cbn [bind].
        split; split; trivial; try discriminate.
        intros (s & l & H). discriminate.
      * destruct (execute_step self hw Hz) as (s1 & l1 & E & _).
        rewrite E. cbn [bind fst snd].
        destruct (IH s1) as [IH1 IH2].
        destruct (run s1 rest) as [[s2 l2]|[]]; cbn [bind fst snd].
        -- assert (Hp : powered rest = true) by (apply IH2; eauto).
           rewrite Hp. split; split; try discriminate; eauto.
        -- assert (Hp : powered rest = false) by (now apply IH1).
           rewrite Hp. split; split; trivial; try discriminate.
           intros (s & l & H). discriminate.
Qed.

Lemma run_ok (self : Shooter) (calls : list call) :
  powered calls = true -> exists self' sent, run self calls = Ok (self', sent).
Proof. intros H. now apply run_raises_iff. Qed.

(** X13: fire requests are not queued.  Over any sequence of calls whose
    cycles all complete, the pulses sent plus the request still pending
    never exceed the calls of [fire] plus the request pending at the
    start; there is at most one pulse per control cycle, and every control
    cycle sends exactly two velocity commands. *)
Theorem run_no_queue (self : Shooter) (calls : list call) :
  powered calls = true ->
  exists self' sent,
    run self calls = Ok (self', sent) /\
    (pulses sent + pending self' <= fires calls + pending self)%nat /\
    (pulses sent <= cycles calls)%nat /\
    length (setpoints sent) = (2 * cycles calls)%nat.
Proof.
  revert self. induction calls as [|c rest IH]; intros self Hp.
  - exists self, []. split; [reflexivity|].
    change (pulses []) with 0%nat. change (fires []) with 0%nat.
    change (cycles []) with 0%nat. change (setpoints []) with (@nil float).
    cbn [length]. repeat split; lia.
  - rewrite powered_cons in Hp. destruct c as [|dist|hw]; cbn [andb] in Hp.
    + destruct (IH (fire self) Hp) as (s' & l & E & H1 & H2 & H3).
      exists s', l. cbn [run]. split; [exact E|].
      unfold fires, cycles in *. cbn [filter length].
      unfold pending in *. cbn [fire inject] in H1.
      destruct (inject self), (inject s'); repeat split; lia.
    + destruct (IH (set_range self dist) Hp) as (s' & l & E & H1 & H2 & H3).
      exists s', l. cbn [run]. split; [exact E|].
      unfold fires, cycles in *. cbn [filter length].
      assert (Hi : pending (set_range self dist) = pending self)
        by (unfold pending; now rewrite set_range_pending).
      rewrite Hi in H1. repeat split; lia.
    + apply andb_true_iff in Hp as [Hz Hp]. apply negb_true_iff in Hz.
      destruct (execute_step self hw Hz) as (s1 & l1 & E1 & I1 & P1 & S1).
      destruct (IH s1 Hp) as (s' & l & E & H1 & H2 & H3).
      exists s', (l1 ++ l). cbn [run]. rewrite E1. cbn [bind fst snd].
      rewrite E. cbn [bind fst snd]. split; [reflexivity|].
      rewrite pulses_app, setpoints_app, length_app, P1, S1.
      unfold fires, cycles in *. cbn [filter length].
      unfold pending in *. rewrite I1 in H1.
      destruct (inject self), (inject s'); repeat split; lia.
Qed.

(** Two calls of [fire] before two cycles at 12 V give one pulse, not two. *)
Lemma run_no_queue_witness :
  exists self' sent,
    run __init__ [Call_fire; Call_fire;
                  Call_execute (at_voltage (of_int 12));
                  Call_execute (at_voltage (of_int 12))] = Ok (self', sent) /\
    (pulses sent + pending self' <= 2 + pending __init__)%nat /\
    (pulses sent <= 2)%nat /\
    length (setpoints sent) = 4%nat.
Proof.
  apply (run_no_queue __init__
           [Call_fire; Call_fire;
            Call_execute (at_voltage (of_int 12));
            Call_execute (at_voltage (of_int 12))]).
  reflexivity.
Defined.

Lemma run_pending_served
  (self : Shooter) (calls : list call) (self' : Shooter) (sent : list command) :
  inject self = true ->
  run self calls = Ok (self', sent) ->
  (1 <= pulses sent + pending self')%nat.
Proof.
  revert self self' sent.
  induction calls as [|c rest IH]; intros self self' sent Hi.
  - simpl. intros H. injection H as <- <-. unfold pending. rewrite Hi.
    simpl. lia.
  - destruct c as [|dist|hw]; cbn [run].
    + apply IH. reflexivity.
    + apply IH. now rewrite set_range_pending.
    + destruct (is_zero (input_voltage hw)) eqn:Hz.
      * rewrite (execute_zero_voltage _ _ Hz). discriminate.
      * destruct (execute_step self hw Hz) as (s1 & l1 & E1 & I1 & P1 & S1).
        rewrite E1. cbn [bind fst snd].
        destruct (run s1 rest) as [[s2 l2]|[]]; cbn [bind fst snd];
          [|discriminate].
        intros H. injection H as <- <-. rewrite pulses_app, P1.
        unfold pending at 1. rewrite Hi. lia.
Qed.

(** X14: a fire request is not lost.  If a sequence of calls whose cycles
    all complete contains a call of [fire], then a pulse was sent or a
    request is still pending at the end; ranging in between does not drop
    it. *)
Theorem run_request_kept (self : Shooter) (calls : list call) :
  powered calls = true ->
  In Call_fire calls ->
  exists self' sent,
    run self calls = Ok (self', sent) /\
    (1 <= pulses sent + pending self')%nat.
Proof.
  intros Hp Hin. destruct (run_ok self calls Hp) as (s' & l & E).
  exists s', l. split; [exact E|].
  clear Hp. revert self s' l E.
  induction calls as [|c rest IH]; [contradiction|].
  intros self s' l. destruct c as [|dist|hw]; cbn [run].
  - apply run_pending_served. reflexivity.
  - destruct Hin as [H|H]; [discriminate|]. now apply IH.
  - destruct Hin as [H|H]; [discriminate|].
    destruct (execute self hw) as [[s1 l1]|[]]; cbn [bind fst snd];
      [|discriminate].
    destruct (run s1 rest) as [[s2 l2]|[]] eqn:E2; cbn [bind fst snd];
      [|discriminate].
    intros E. injection E as <- <-. rewrite pulses_app.
    specialize (IH H s1 s2 l2 E2). lia.
Qed.

Lemma run_request_kept_witness :
  exists self' sent,
    run __init__ [Call_execute (at_voltage (of_int 12)); Call_fire;
                  Call_set_range (of_int 12)] = Ok (self', sent) /\
    (1 <= pulses sent + pending self')%nat.
Proof.
  apply (run_request_kept __init__
           [Call_execute (at_voltage (of_int 12)); Call_fire;
            Call_set_range (of_int 12)]).
  - reflexivity.
  - right. left. reflexivity.
Defined.

(** ** Rounding does not overflow on small magnitudes *)

Module MagnitudeFacts.


(** The number of binary digits of a positive number. *)
Lemma digits2_pos_bounds (p : positive) :
  2 ^ (Z.pos (digits2_pos p) - 1) <= Z.pos p < 2 ^ Z.pos (digits2_pos p).
Proof.
  induction p as [p IH|p IH|]; cbn [digits2_pos].
  - rewrite Pos2Z.inj_succ.
    replace (Z.succ (Z.pos (digits2_pos p)) - 1)
      with (Z.succ (Z.pos (digits2_pos p) - 1)) by lia.
    rewrite !Z.pow_succ_r by lia. lia.
  - rewrite Pos2Z.inj_succ.
    replace (Z.succ (Z.pos (digits2_pos p)) - 1)
      with (Z.succ (Z.pos (digits2_pos p) - 1)) by lia.
    rewrite !Z.pow_succ_r by lia. lia.
  - simpl. lia.
Qed.

Lemma Zdigits2_nonneg (m : Z) : 0 <= m -> 0 <= Zdigits2 m.
Proof. destruct m; simpl; lia. Qed.

Lemma Zdigits2_lt (m : Z) : 0 <= m -> m < 2 ^ Zdigits2 m.
Proof.
  destruct m as [|p|p]; intros H; [simpl; lia| |lia].
  apply digits2_pos_bounds.
Qed.

Lemma Zdigits2_le_of_lt (m k : Z) :
  0 <= m -> 0 <= k -> m < 2 ^ k -> Zdigits2 m <= k.
Proof.
  destruct m as [|p|p]; intros Hm Hk H; [simpl; lia| |lia].
  pose proof (digits2_pos_bounds p) as [Hlo _]. simpl.
  destruct (Z.le_gt_cases (Z.pos (digits2_pos p)) k) as [|Hgt]; trivial.
  exfalso.
  assert (2 ^ k <= 2 ^ (Z.pos (digits2_pos p) - 1))
    by (apply Z.pow_le_mono_r; lia).
  lia.
Qed.

Lemma Zdigits2_mono (a b : Z) : 0 <= a <= b -> Zdigits2 a <= Zdigits2 b.
Proof.
  intros [Ha Hab]. apply Zdigits2_le_of_lt; trivial.
  - apply Zdigits2_nonneg. lia.
  - pose proof (Zdigits2_lt b ltac:(lia)). lia.
Qed.

Lemma Zdigits2_succ (m : Z) : 0 <= m -> Zdigits2 (m + 1) <= Zdigits2 m + 1.
Proof.
  intros H. apply Zdigits2_le_of_lt; try lia.
  - pose proof (Zdigits2_nonneg m H). lia.
  - pose proof (Zdigits2_lt m H). pose proof (Zdigits2_nonneg m H).
    rewrite Z.pow_add_r by lia. change (2 ^ 1) with 2. lia.
Qed.

Lemma Zdigits2_add (a b : Z) :
  0 <= a -> 0 <= b -> Zdigits2 (a + b) <= Z.max (Zdigits2 a) (Zdigits2 b) + 1.
Proof.
  intros Ha Hb.
  pose proof (Zdigits2_nonneg a Ha). pose proof (Zdigits2_nonneg b Hb).
  apply Zdigits2_le_of_lt; try lia.
  pose proof (Zdigits2_lt a Ha). pose proof (Zdigits2_lt b Hb).
  assert (2 ^ Zdigits2 a <= 2 ^ Z.max (Zdigits2 a) (Zdigits2 b))
    by (apply Z.pow_le_mono_r; lia).
  assert (2 ^ Zdigits2 b <= 2 ^ Z.max (Zdigits2 a) (Zdigits2 b))
    by (apply Z.pow_le_mono_r; lia).
  rewrite Z.pow_add_r by lia. change (2 ^ 1) with 2. lia.
Qed.

Lemma Zdigits2_mul (a b : Z) :
  0 <= a -> 0 <= b -> Zdigits2 (a * b) <= Zdigits2 a + Zdigits2 b.
Proof.
  intros Ha Hb.
  pose proof (Zdigits2_nonneg a Ha). pose proof (Zdigits2_nonneg b Hb).
  apply Zdigits2_le_of_lt; try nia.
  pose proof (Zdigits2_lt a Ha). pose proof (Zdigits2_lt b Hb).
  rewrite Z.pow_add_r by lia. nia.
Qed.

Lemma digits2_pos_iter_xO (m d : positive) :
  Z.pos (digits2_pos (Pos.iter xO m d)) = Z.pos (digits2_pos m) + Z.pos d.
Proof.
  induction d as [|d IH] using Pos.peano_ind.
  - cbn [Pos.iter digits2_pos]. rewrite Pos2Z.inj_succ. lia.
  - rewrite Pos.iter_succ. cbn [digits2_pos]. rewrite !Pos2Z.inj_succ, IH. lia.
Qed.

(** One shift to the right drops one digit. *)
Lemma shr_1_digits (mrs : shr_record) :
  0 <= shr_m mrs ->
  Zdigits2 (shr_m (shr_1 mrs)) = Z.max 0 (Zdigits2 (shr_m mrs) - 1).
Proof.
  destruct mrs as [m r s]. cbn [shr_m].
  destruct m as [|p|p]; [reflexivity| |lia]. intros _.
  destruct p; cbn [shr_1 shr_m Zdigits2 digits2_pos];
    rewrite ?Pos2Z.inj_succ; lia.
Qed.

Lemma iter_shr_1_digits (p : positive) (mrs : shr_record) :
  0 <= shr_m mrs ->
  Zdigits2 (shr_m (iter_pos shr_1 p mrs))
    = Z.max 0 (Zdigits2 (shr_m mrs) - Z.pos p).
Proof.
  revert mrs. induction p as [p IH|p IH|]; intros mrs H; simpl iter_pos.
  - rewrite IH, IH, shr_1_digits; trivial.
    + lia.
    + now apply shr_1_nonneg.
    + apply iter_shr_1_nonneg. now apply shr_1_nonneg.
  - rewrite IH, IH; trivial.
    + lia.
    + now apply iter_shr_1_nonneg.
  - now apply shr_1_digits.
Qed.


Lemma fexp_eq (k : Z) : fexp prec emax k = Z.max (k - 53) (-1074).
Proof. reflexivity. Qed.

(** The truncation step: the exponent reached and the digits left. *)
Lemma shr_fexp_digits (m e : Z) (l : location) :
  0 <= m ->
  let r := shr_fexp prec emax m e l in
  0 <= shr_m (fst r) /\
  snd r = Z.max e (fexp prec emax (Zdigits2 m + e)) /\
  Zdigits2 (shr_m (fst r)) = Z.max 0 (Zdigits2 m - (snd r - e)).
Proof.
  intros H r. subst r. unfold shr_fexp, shr.
  assert (H0 : shr_m (shr_record_of_loc m l) = m)
    by (destruct l as [|[ | | ]]; reflexivity).
  pose proof (Zdigits2_nonneg m H) as Hd.
  destruct (fexp prec emax (Zdigits2 m + e) - e) as [|p|p] eqn:E; cbn [fst snd].
  - rewrite H0. repeat split; lia.
  - rewrite iter_shr_1_digits, H0 by (rewrite H0; exact H).
    split; [apply iter_shr_1_nonneg; rewrite H0; exact H|].
    split; lia.
  - rewrite H0. repeat split; lia.
Qed.

Lemma round_nearest_even_cases (m : Z) (l : location) :
  round_nearest_even m l = m \/ round_nearest_even m l = m + 1.
Proof.
  destruct l as [|[ | | ]]; simpl; auto. destruct (Z.even m); auto.
Qed.

(** Rounding a mantissa whose magnitude exponent is at most [B] neither
    overflows nor gives NaN, and raises the magnitude exponent by at most
    one. *)
Lemma binary_round_aux_mag (sx : bool) (mx ex : Z) (lx : location) (B : Z) :
  0 <= mx -> Zdigits2 mx + ex <= B -> B <= 971 ->
  match binary_round_aux prec emax sx mx ex lx with
  | S754_zero s => s = sx
  | S754_finite s m e =>
      s = sx /\ Zdigits2 (Z.pos m) + e <= Z.max B (-1074) + 1
  | _ => False
  end.
Proof.
  intros H HB HB'. unfold binary_round_aux.
  pose proof (Zdigits2_nonneg mx H) as Hd.
  pose proof (shr_fexp_digits mx ex lx H) as (N1 & E1 & D1).
  destruct (shr_fexp prec emax mx ex lx) as [mrs1 e1]. cbn [fst snd] in *.
  set (m2 := round_nearest_even (shr_m mrs1) (loc_of_shr_record mrs1)).
  assert (N2 : 0 <= m2) by (now apply round_nearest_even_nonneg).
  assert (D2 : Zdigits2 m2 <= Zdigits2 (shr_m mrs1) + 1).
  { subst m2. destruct (round_nearest_even_cases (shr_m mrs1)
                          (loc_of_shr_record mrs1)) as [->| ->].
    - lia.
    - now apply Zdigits2_succ. }
  pose proof (Zdigits2_nonneg m2 N2) as Hd2.
  pose proof (shr_fexp_digits m2 e1 loc_Exact N2) as (N3 & E3 & D3).
  destruct (shr_fexp prec emax m2 e1 loc_Exact) as [mrs2 e2].
  cbn [fst snd] in *. rewrite fexp_eq in E1, E3.
  destruct (shr_m mrs2) as [|p|p] eqn:Em; [reflexivity| |lia].
  assert (Hp : 1 <= Zdigits2 (Z.pos p)) by (simpl; lia).
  assert (He : e2 <= 971) by lia.
  replace (e2 <=? emax - prec) with true
    by (symmetry; apply Z.leb_le; unfold emax, prec; lia).
  split; [reflexivity|]. lia.
Qed.


Lemma bounded_nonneg_weaken (B B' : Z) (x : float) :
  B <= B' -> bounded_nonneg B x -> bounded_nonneg B' x.
Proof. destruct x as [s|s| |[|] m e]; simpl; trivial. lia. Qed.

Lemma bounded_nonneg_finite (B : Z) (x : float) :
  bounded_nonneg B x -> is_finite x = true /\ (zero <=? x)%float = true.
Proof. destruct x as [s|s| |[|] m e]; simpl; try contradiction; auto. Qed.

Lemma shl_align_mag (mx : positive) (ex ex' : Z) :
  Zdigits2 (Z.pos (fst (shl_align mx ex ex'))) + snd (shl_align mx ex ex')
  = Zdigits2 (Z.pos mx) + ex.
Proof.
  unfold shl_align. destruct (ex' - ex) as [|d|d] eqn:E; cbn [fst snd]; trivial.
  cbn [Zdigits2]. rewrite digits2_pos_iter_xO. lia.
Qed.

Lemma shl_align_fst_mag (mx : positive) (ex ex' : Z) :
  ex' <= ex ->
  Zdigits2 (Z.pos (fst (shl_align mx ex ex'))) + ex' = Zdigits2 (Z.pos mx) + ex.
Proof.
  intros H. pose proof (shl_align_mag mx ex ex') as M.
  unfold shl_align in *.
  destruct (ex' - ex) as [|d|d] eqn:E; cbn [fst snd] in *; lia.
Qed.

Lemma binary_round_mag (sx : bool) (mx : positive) (ex B : Z) :
  Zdigits2 (Z.pos mx) + ex <= B -> B <= 971 ->
  match binary_round prec emax sx mx ex with
  | S754_zero s => s = sx
  | S754_finite s m e =>
      s = sx /\ Zdigits2 (Z.pos m) + e <= Z.max B (-1074) + 1
  | _ => False
  end.
Proof.
  intros H HB. unfold binary_round.
  pose proof (shl_align_mag mx ex
                (fexp prec emax (Z.pos (digits2_pos mx) + ex))) as M.
  destruct (shl_align mx ex (fexp prec emax (Z.pos (digits2_pos mx) + ex)))
    as [mz ez]. cbn [fst snd] in M.
  apply binary_round_aux_mag; lia.
Qed.

Lemma mul_bounded (B1 B2 : Z) (x y : float) :
  bounded_nonneg B1 x -> bounded_nonneg B2 y -> B1 + B2 <= 971 ->
  bounded_nonneg (Z.max (B1 + B2) (-1074) + 1) (x * y)%float.
Proof.
  destruct x as [s|s| |[|] m e], y as [s'|s'| |[|] m' e'];
    cbn [bounded_nonneg]; try contradiction; try (intros; exact I).
  intros H1 H2 HB. unfold mul, SFmul. cbn [xorb].
  pose proof (Zdigits2_mul (Z.pos m) (Z.pos m') ltac:(lia) ltac:(lia)) as D.
  change (Z.pos m * Z.pos m') with (Z.pos (m * m')) in D.
  cbn [Zdigits2] in *.
  assert (HD : Zdigits2 (Z.pos (m * m')) + (e + e') <= B1 + B2)
    by (cbn [Zdigits2]; lia).
  pose proof (binary_round_aux_mag false (Z.pos (m * m')) (e + e') loc_Exact
                (B1 + B2) ltac:(lia) HD HB) as R.
  destruct (binary_round_aux prec emax false (Z.pos (m * m')) (e + e') loc_Exact)
    as [s|s| |s m'' e'']; cbn [bounded_nonneg]; try contradiction; [exact I|].
  destruct R as [-> R]. exact R.
Qed.

Lemma add_bounded (B1 B2 : Z) (x y : float) :
  bounded_nonneg B1 x -> bounded_nonneg B2 y -> Z.max B1 B2 + 1 <= 971 ->
  bounded_nonneg (Z.max (Z.max B1 B2 + 1) (-1074) + 1) (x + y)%float.
Proof.
  destruct x as [s|s| |[|] m e], y as [s'|s'| |[|] m' e'];
    cbn [bounded_nonneg]; try contradiction;
    try (destruct s, s'; intros; exact I);
    try (intros; cbn [add SFadd bounded_nonneg]; lia).
  intros H1 H2 HB. unfold add, SFadd. cbn [cond_Zopp].
  set (ez := Z.min e e').
  pose proof (shl_align_fst_mag m e ez ltac:(subst ez; lia)) as Ma.
  pose proof (shl_align_fst_mag m' e' ez ltac:(subst ez; lia)) as Mb.
  set (a := fst (shl_align m e ez)) in *.
  set (b := fst (shl_align m' e' ez)) in *.
  change (Z.pos a + Z.pos b) with (Z.pos (a + b)). cbn [binary_normalize].
  pose proof (Zdigits2_add (Z.pos a) (Z.pos b) ltac:(lia) ltac:(lia)) as D.
  change (Z.pos a + Z.pos b) with (Z.pos (a + b)) in D.
  cbn [Zdigits2] in *.
  assert (HD : Zdigits2 (Z.pos (a + b)) + ez <= Z.max B1 B2 + 1)
    by (cbn [Zdigits2]; lia).
  pose proof (binary_round_mag false (a + b) ez (Z.max B1 B2 + 1) HD HB) as R.
  destruct (binary_round prec emax false (a + b) ez)
    as [s|s| |s m'' e'']; cbn [bounded_nonneg]; try contradiction; [exact I|].
  destruct R as [-> R]. exact R.
Qed.


Lemma valid_finite (s : bool) (m : positive) (e : Z) :
  valid (S754_finite s m e) = true ->
  Z.max (Z.pos (digits2_pos m) + e - 53) (-1074) = e /\ e <= 971.
Proof.
  unfold valid, valid_binary, bounded, canonical_mantissa.
  rewrite andb_true_iff, Z.eqb_eq, Z.leb_le. rewrite fexp_eq.
  unfold emax, prec. lia.
Qed.

(** Of two valid non-negative floats in order, the larger has the larger
    mantissa once both are written at the smaller exponent. *)
Lemma leb_aligned (m m' : positive) (e e' : Z) :
  valid (S754_finite false m e) = true ->
  valid (S754_finite false m' e') = true ->
  (S754_finite false m' e' <=? S754_finite false m e)%float = true ->
  Z.pos (fst (shl_align m' e' (Z.min e e')))
    <= Z.pos (fst (shl_align m e (Z.min e e'))).
Proof.
  intros Vx Vy H.
  apply valid_finite in Vx as [Vx Vx'], Vy as [Vy Vy'].
  unfold leb, SFleb, SFcompare in H.
  destruct (Z.compare_spec e' e) as [E|E|E]; [| |discriminate].
  - subst e'. rewrite Z.min_id. unfold shl_align. rewrite Z.sub_diag.
    cbn [fst].
    destruct (Pos.compare_cont Eq m' m) eqn:C; try discriminate.
    + apply Pos.compare_eq in C. subst. lia.
    + change (Pos.compare_cont Eq m' m) with (m' ?= m)%positive in C.
      rewrite Pos.compare_lt_iff in C. lia.
  - rewrite Z.min_r by lia.
    pose proof (shl_align_fst_mag m e e' ltac:(lia)) as Ma.
    unfold shl_align at 1. rewrite Z.sub_diag. cbn [fst].
    set (a := fst (shl_align m e e')) in *.
    pose proof (digits2_pos_bounds a) as [La _].
    pose proof (digits2_pos_bounds m') as [_ Ub].
    cbn [Zdigits2] in Ma.
    assert (2 ^ Z.pos (digits2_pos m') <= 2 ^ 53)
      by (apply Z.pow_le_mono_r; lia).
    assert (2 ^ 53 <= 2 ^ (Z.pos (digits2_pos a) - 1))
      by (apply Z.pow_le_mono_r; lia).
    lia.
Qed.

Lemma sub_bounded (B : Z) (x y : float) :
  valid x = true -> valid y = true ->
  (y <=? x)%float = true ->
  bounded_nonneg B x -> bounded_nonneg B y -> B <= 971 ->
  bounded_nonneg (Z.max B (-1074) + 1) (x - y)%float.
Proof.
  destruct x as [s|s| |[|] m e], y as [s'|s'| |[|] m' e'];
    cbn [bounded_nonneg]; try contradiction;
    try (destruct s, s'; intros; exact I).
  - (* 0 - y with y <= 0: impossible for a positive y *)
    intros _ _ H. discriminate H.
  - intros _ _ _ H _ _. cbn [sub SFsub bounded_nonneg]. lia.
  - intros Vx Vy H Hx Hy HB.
    pose proof (leb_aligned m m' e e' Vx Vy H) as L.
    unfold sub, SFsub. cbn [cond_Zopp].
    set (ez := Z.min e e') in *.
    pose proof (shl_align_fst_mag m e ez ltac:(subst ez; lia)) as Ma.
    set (a := fst (shl_align m e ez)) in *.
    set (b := fst (shl_align m' e' ez)) in *.
    destruct (Z.pos a - Z.pos b) as [|p|p] eqn:E; [exact I| |lia].
    cbn [binary_normalize].
    pose proof (Zdigits2_mono (Z.pos p) (Z.pos a) ltac:(lia)) as D.
    cbn [Zdigits2] in *.
    assert (HD : Zdigits2 (Z.pos p) + ez <= B) by (cbn [Zdigits2]; lia).
    pose proof (binary_round_mag false p ez B HD HB) as R.
    destruct (binary_round prec emax false p ez)
      as [s|s| |s m'' e'']; cbn [bounded_nonneg]; try contradiction; [exact I|].
    destruct R as [-> R]. exact R.
Qed.

End MagnitudeFacts.

Import MagnitudeFacts.

(** ** Targets after ranging *)

Ltac closed_bound := vm_compute; first [exact I | intro; discriminate].

(** A valid float between zero and a finite constant has a magnitude
    exponent no larger than the constant's. *)
Lemma between_bounded (d : float) (mc : positive) (ec : Z) :
  valid d = true ->
  (zero <=? d)%float = true ->
  (d <=? S754_finite false mc ec)%float = true ->
  bounded_nonneg (53 + ec) d.
Proof.
  destruct d as [s|s| |[|] m e]; cbn [bounded_nonneg]; trivial;
    try discriminate; try (destruct s; discriminate).
  intros V _ H. apply valid_finite in V as [V _].
  unfold leb, SFleb, SFcompare in H. cbn [Zdigits2].
  destruct (Z.compare_spec e ec); try discriminate; lia.
Qed.

Lemma linear_piece_bounded (x x0 y0 x1 y1 : float) :
  valid x = true -> valid x0 = true ->
  (x0 <=? x)%float = true ->
  bounded_nonneg 10 x -> bounded_nonneg 10 x0 ->
  bounded_nonneg 20 y0 ->
  bounded_nonneg 20 ((y1 - y0) / (x1 - x0))%float ->
  bounded_nonneg 40 (linear_piece x x0 y0 x1 y1).
Proof.
  intros Vx V0 H Bx B0 By Bs. unfold linear_piece.
  pose proof (sub_bounded 10 x x0 Vx V0 H Bx B0 ltac:(lia)) as Br.
  pose proof (mul_bounded 20 _ _ _ Bs Br ltac:(lia)) as Bm.
  pose proof (add_bounded _ 20 _ _ Bm By ltac:(lia)) as Ba.
  eapply bounded_nonneg_weaken; [|exact Ba]. lia.
Qed.

(** With a slope of zero the linear piece is the sample's value. *)
Lemma linear_piece_flat (x x0 y0 x1 y1 : float) :
  valid x = true -> valid x0 = true ->
  (x0 <=? x)%float = true ->
  bounded_nonneg 10 x -> bounded_nonneg 10 x0 ->
  ((y1 - y0) / (x1 - x0))%float = zero ->
  is_finite y0 = true -> is_zero y0 = false ->
  linear_piece x x0 y0 x1 y1 = y0.
Proof.
  intros Vx V0 H Bx B0 Es Fy Zy. unfold linear_piece. rewrite Es.
  pose proof (sub_bounded 10 x x0 Vx V0 H Bx B0 ltac:(lia)) as Br.
  destruct (x - x0)%float as [s|s| |[|] m e]; cbn [bounded_nonneg] in Br;
    try contradiction;
    destruct y0 as [s'|s'| |s' m' e']; try discriminate; reflexivity.
Qed.

Lemma set_range_interp (self : Shooter) (dist : float) :
  exists d : float,
    (d = dist \/ d = hd nan ranges \/ d = last ranges nan) /\
    (hd nan ranges <=? d)%float = true /\
    (d <=? last ranges nan)%float = true /\
    centre_target (set_range self dist) = interp d ranges centre_rpms /\
    outer_target (set_range self dist) = interp d ranges outer_rpms.
Proof.
  unfold set_range.
  destruct ((hd nan ranges <=? dist)%float && (dist <=? last ranges nan)%float)
    eqn:Hin.
  - exists dist. apply andb_true_iff in Hin as [Hlo Hhi]. auto 6.
  - unfold Py.max. destruct (dist <? hd nan ranges)%float eqn:Hlt.
    + exists (hd nan ranges). repeat split; auto.
    + unfold Py.min. destruct (dist <? last ranges nan)%float eqn:Hlt'.
      * exfalso. destruct (ltb_not_nan _ _ Hlt') as [Hn _].
        rewrite (not_ltb_leb dist (hd nan ranges) Hn eq_refl Hlt),
          (ltb_leb _ _ Hlt') in Hin.
        discriminate.
      * exists (last ranges nan). repeat split; auto.
Qed.

Lemma interp_ranges_bounded (d : float) :
  valid d = true ->
  (hd nan ranges <=? d)%float = true ->
  (d <=? last ranges nan)%float = true ->
  bounded_nonneg 40 (interp d ranges centre_rpms) /\
  interp d ranges outer_rpms = of_int 5000.
Proof.
  intros V Hlo Hhi.
  assert (Bd : bounded_nonneg 10 d).
  { eapply bounded_nonneg_weaken;
      [|apply (between_bounded d 6192449487634432 (-49) V Hlo Hhi)]. lia. }
  set (xs := map of_int [7; 8; 9; 10; 11]).
  change ranges with (of_int 0 :: xs) in *.
  change (hd nan (of_int 0 :: xs)) with (of_int 0) in Hlo.
  pose proof (interp_in_table d (of_int 0) xs centre_rpms Hlo Hhi) as [Hj Hc].
  pose proof (interp_in_table d (of_int 0) xs outer_rpms Hlo Hhi) as [_ Ho].
  pose proof (search_range d xs 0) as R.
  set (j := search d xs 0) in *. clearbody j.
  destruct Hc as [[Ec Hc]|[Lc [Sc Hc]]], Ho as [[Eo Ho]|[Lo [So Ho]]];
    try (exfalso; subst xs; cbn [length map] in *; lia).
  - assert (j = 5%nat) by (subst xs; cbn [length map] in *; lia). subst j.
    rewrite Hc, Ho. split; [closed_bound | vm_compute; reflexivity].
  - rewrite Hc, Ho. clear Hc Ho. subst xs. cbn [length map] in *.
    destruct (nth j [of_int 0; of_int 7; of_int 8; of_int 9; of_int 10; of_int 11]
                nan =? d)%float.
    + do 5 (destruct j as [|j];
            [split; [closed_bound | vm_compute; reflexivity]|]). lia.
    + do 5 (destruct j as [|j];
            [split;
             [apply linear_piece_bounded; trivial; closed_bound
             |apply linear_piece_flat; trivial;
              first [closed_bound | vm_compute; reflexivity]]|]).
      lia.
Qed.

Lemma set_range_targets_bounded (self : Shooter) (dist : float) :
  valid dist = true ->
  bounded_nonneg 40 (centre_target (set_range self dist)) /\
  outer_target (set_range self dist) = of_int 5000.
Proof.
  intros V.
  destruct (set_range_interp self dist) as (d & Hd & Hlo & Hhi & -> & ->).
  apply interp_ranges_bounded; trivial.
  destruct Hd as [->|[->| ->]]; trivial.
Qed.

(** X15: for every binary64 distance, NaN and the infinities included,
    [set_range] leaves a centre target that is finite and not negative and
    an outer target of exactly 5000. *)
Theorem set_range_targets_finite (self : Shooter) (dist : float) :
  valid dist = true ->
  is_finite (centre_target (set_range self dist)) = true /\
  (zero <=? centre_target (set_range self dist))%float = true /\
  outer_target (set_range self dist) = of_int 5000.
Proof.
  intros V. destruct (set_range_targets_bounded self dist V) as [Hc Ho].
  apply bounded_nonneg_finite in Hc as [Hf Hz]. auto.
Qed.

Lemma set_range_targets_finite_witness :
  is_finite (centre_target (set_range __init__ infinity)) = true /\
  (zero <=? centre_target (set_range __init__ infinity))%float = true /\
  outer_target (set_range __init__ infinity) = of_int 5000.
Proof.
  apply (set_range_targets_finite __init__ infinity). reflexivity.
Defined.

(** X16: for the targets left by [set_range], whatever the distance,
    [is_at_speed] is the spec's test on magnitudes,
    [|target - measured| <= |target| * tolerance] for both flywheels. *)
Theorem is_at_speed_after_set_range
  (self : Shooter) (dist : float) (hw : readings) :
  valid dist = true ->
  is_at_speed (set_range self dist) hw =
    within_tolerance (centre_target (set_range self dist))
      (get_centre_velocity hw) (velocity_tolerance self)
    && within_tolerance (outer_target (set_range self dist))
         (get_outer_velocity hw) (velocity_tolerance self).
Proof.
  intros V. destruct (set_range_targets_bounded self dist V) as [Hc Ho].
  apply bounded_nonneg_finite in Hc as [_ Hz].
  unfold is_at_speed, within_tolerance.
  assert (Ht : velocity_tolerance (set_range self dist)
               = velocity_tolerance self).
  { unfold set_range.
    destruct ((hd nan ranges <=? dist)%float && (dist <=? last ranges nan)%float);
      reflexivity. }
  rewrite Ht.
  rewrite (tolerance_signed_magnitude _ _ (velocity_tolerance self) Hz).
  rewrite Ho.
  rewrite (tolerance_signed_magnitude _ (of_int 5000)
             (velocity_tolerance self) eq_refl).
  reflexivity.
Qed.

Lemma is_at_speed_after_set_range_witness :
  is_at_speed (set_range __init__ (decimal 75 1)) (spinning 204800 1024000) =
    within_tolerance (centre_target (set_range __init__ (decimal 75 1)))
      (get_centre_velocity (spinning 204800 1024000))
      (velocity_tolerance __init__)
    && within_tolerance (outer_target (set_range __init__ (decimal 75 1)))
         (get_outer_velocity (spinning 204800 1024000))
         (velocity_tolerance __init__).
Proof.
  apply (is_at_speed_after_set_range __init__ (decimal 75 1)
           (spinning 204800 1024000)).
  reflexivity.
Defined.

(** X17: a control cycle right after [set_range], with a finite nonzero
    supply voltage, completes whatever the distance was; the centre
    set-point it sends is finite and not negative, the outer set-point is
    exactly 1024000, and neither feedforward value is NaN. *)
Theorem execute_after_set_range
  (self : Shooter) (dist : float) (hw : readings) :
  valid dist = true ->
  is_finite (input_voltage hw) = true ->
  is_zero (input_voltage hw) = false ->
  exists self' sent centre_sp outer_sp centre_ff outer_ff,
    execute (set_range self dist) hw = Ok (self', sent) /\
    setpoints sent = [centre_sp; outer_sp] /\
    feed_forwards sent = [centre_ff; outer_ff] /\
    is_finite centre_sp = true /\ (zero <=? centre_sp)%float = true /\
    outer_sp = of_int 1024000 /\
    is_nan centre_ff = false /\ is_nan outer_ff = false.
Proof.
  intros V Hf Hz.
  destruct (set_range_targets_bounded self dist V) as [Hc Ho].
  rewrite (execute_nonzero_voltage _ _ Hz). cbv zeta.
  assert (Hsp : bounded_nonneg 49
                  (centre_target (set_range self dist)
                   * RPS_TO_CTRE_UNITS)%float).
  { apply (mul_bounded 40 8); trivial; [closed_bound | lia]. }
  apply bounded_nonneg_finite in Hsp as [Hsf Hsz].
  assert (Hcn : is_nan (centre_target (set_range self dist)) = false).
  { apply bounded_nonneg_finite in Hc as [Hc _].
    destruct (centre_target (set_range self dist));
      (discriminate || reflexivity). }
  assert (Hcf : is_nan (calculate centre_ff_calculator
                          (centre_target (set_range self dist))
                        / input_voltage hw)%float = false).
  { apply div_not_nan; trivial. apply calculate_not_nan; trivial;
      vm_compute; reflexivity. }
  assert (Hof : is_nan (calculate outer_ff_calculator
                          (outer_target (set_range self dist))
                        / input_voltage hw)%float = false).
  { apply div_not_nan; trivial. rewrite Ho. apply calculate_not_nan; trivial;
      vm_compute; reflexivity. }
  assert (Hos : (outer_target (set_range self dist) * RPS_TO_CTRE_UNITS)%float
                = of_int 1024000)
    by (rewrite Ho; vm_compute; reflexivity).
  destruct (inject (set_range self dist)); do 6 eexists;
    (split; [reflexivity|]); (split; [reflexivity|]); (split; [reflexivity|]);
    auto 6.
Qed.

Lemma execute_after_set_range_witness :
  exists self' sent centre_sp outer_sp centre_ff outer_ff,
    execute (set_range __init__ nan) (at_voltage (of_int 12))
      = Ok (self', sent) /\
    setpoints sent = [centre_sp; outer_sp] /\
    feed_forwards sent = [centre_ff; outer_ff] /\
    is_finite centre_sp = true /\ (zero <=? centre_sp)%float = true /\
    outer_sp = of_int 1024000 /\
    is_nan centre_ff = false /\ is_nan outer_ff = false.
Proof.
  apply (execute_after_set_range __init__ nan (at_voltage (of_int 12)));
    reflexivity.
Defined.

(** ** Measured velocities *)

Lemma Zdigits2_pos (m : Z) : 0 < m -> 1 <= Zdigits2 m.
Proof. destruct m; simpl; lia. Qed.

Lemma Zdigits2_zero (m : Z) : 0 <= m -> 1 <= Zdigits2 m -> 0 < m.
Proof. destruct m; simpl; lia. Qed.

Lemma Zdigits2_ge (m : Z) : 0 < m -> 2 ^ (Zdigits2 m - 1) <= m.
Proof.
  destruct m as [|p|p]; try lia. intros _. apply digits2_pos_bounds.
Qed.

Lemma Zdigits2_mul_ge (a b : Z) :
  0 < a -> 0 < b -> Zdigits2 a + Zdigits2 b - 1 <= Zdigits2 (a * b).
Proof.
  intros Ha Hb.
  pose proof (Zdigits2_pos a Ha). pose proof (Zdigits2_pos b Hb).
  pose proof (Zdigits2_ge a Ha) as La. pose proof (Zdigits2_ge b Hb) as Lb.
  pose proof (Zdigits2_lt (a * b) ltac:(nia)) as U.
  assert (P : 2 ^ (Zdigits2 a - 1 + (Zdigits2 b - 1)) <= a * b).
  { rewrite Z.pow_add_r by lia.
    assert (0 < 2 ^ (Zdigits2 a - 1)) by (apply Z.pow_pos_nonneg; lia).
    assert (0 < 2 ^ (Zdigits2 b - 1)) by (apply Z.pow_pos_nonneg; lia).
    nia. }
  destruct (Z.le_gt_cases (Zdigits2 a + Zdigits2 b - 1) (Zdigits2 (a * b)))
    as [|G]; trivial. exfalso.
  assert (2 ^ Zdigits2 (a * b) <= 2 ^ (Zdigits2 a - 1 + (Zdigits2 b - 1))).
  { apply Z.pow_le_mono_r; [lia|]. lia. }
  lia.
Qed.

(** Rounding a positive mantissa that is not below the smallest subnormal
    gives no zero, and does not lower the magnitude exponent. *)
Lemma binary_round_aux_nonzero (sx : bool) (mx ex : Z) (lx : location) :
  0 < mx -> -1073 <= Zdigits2 mx + ex ->
  match binary_round_aux prec emax sx mx ex lx with
  | S754_infinity s => s = sx
  | S754_finite s m e =>
      s = sx /\ Zdigits2 mx + ex <= Zdigits2 (Z.pos m) + e
  | _ => False
  end.
Proof.
  intros H HB. unfold binary_round_aux.
  pose proof (Zdigits2_pos mx H) as Hd.
  pose proof (shr_fexp_digits mx ex lx ltac:(lia)) as (N1 & E1 & D1).
  destruct (shr_fexp prec emax mx ex lx) as [mrs1 e1]. cbn [fst snd] in *.
  set (m2 := round_nearest_even (shr_m mrs1) (loc_of_shr_record mrs1)).
  assert (N2 : shr_m mrs1 <= m2).
  { subst m2. destruct (round_nearest_even_cases (shr_m mrs1)
                          (loc_of_shr_record mrs1)) as [->| ->]; lia. }
  pose proof (Zdigits2_mono (shr_m mrs1) m2 ltac:(lia)) as D2.
  pose proof (shr_fexp_digits m2 e1 loc_Exact ltac:(lia)) as (N3 & E3 & D3).
  destruct (shr_fexp prec emax m2 e1 loc_Exact) as [mrs2 e2].
  cbn [fst snd] in *. rewrite fexp_eq in E1, E3.
  assert (Hp : 1 <= Zdigits2 (shr_m mrs2)) by lia.
  destruct (shr_m mrs2) as [|p|p] eqn:Em; [simpl in Hp; lia| |lia].
  destruct (e2 <=? emax - prec); [|reflexivity].
  split; [reflexivity|]. lia.
Qed.

Lemma binary_round_nonzero (sx : bool) (mx : positive) (ex : Z) :
  -1073 <= Zdigits2 (Z.pos mx) + ex ->
  match binary_round prec emax sx mx ex with
  | S754_infinity s => s = sx
  | S754_finite s m e =>
      s = sx /\ Zdigits2 (Z.pos mx) + ex <= Zdigits2 (Z.pos m) + e
  | _ => False
  end.
Proof.
  intros H. unfold binary_round.
  pose proof (shl_align_mag mx ex
                (fexp prec emax (Z.pos (digits2_pos mx) + ex))) as M.
  destruct (shl_align mx ex (fexp prec emax (Z.pos (digits2_pos mx) + ex)))
    as [mz ez]. cbn [fst snd] in M.
  pose proof (binary_round_aux_nonzero sx (Z.pos mz) ez loc_Exact
                ltac:(lia) ltac:(lia)) as R.
  destruct (binary_round_aux prec emax sx (Z.pos mz) ez loc_Exact);
    trivial. destruct R as [-> R]. split; [reflexivity|]. lia.
Qed.

(** The float of a nonzero int is not a zero, and is at least 1 in
    magnitude. *)
Lemma of_int_nonzero (z : Z) :
  z <> 0 ->
  match of_int z with
  | S754_infinity s => s = (z <? 0)
  | S754_finite s m e => s = (z <? 0) /\ 1 <= Zdigits2 (Z.pos m) + e
  | _ => False
  end.
Proof.
  unfold of_int. destruct z as [|p|p]; [contradiction| |]; intros _;
    cbn [binary_normalize].
  - pose proof (binary_round_nonzero false p 0 ltac:(simpl; lia)) as R.
    destruct (binary_round prec emax false p 0); trivial.
    destruct R as [-> R]. split; [reflexivity|]. simpl in *; lia.
  - pose proof (binary_round_nonzero true p 0 ltac:(simpl; lia)) as R.
    destruct (binary_round prec emax true p 0); trivial.
    destruct R as [-> R]. split; [reflexivity|]. simpl in *; lia.
Qed.

(** Scaling a nonzero reading by a positive constant of 53 digits that is
    not tiny gives a float of the reading's sign, not a zero. *)
Lemma reading_scaled_nonzero (z : Z) (m : positive) (e : Z) :
  z <> 0 -> -1020 <= Zdigits2 (Z.pos m) + e ->
  let v := (of_int z * S754_finite false m e)%float in
  (0 < z -> (zero <? v)%float = true) /\
  (z < 0 -> (v <? zero)%float = true).
Proof.
  intros Hz Hm v. subst v. pose proof (of_int_nonzero z Hz) as H.
  destruct (of_int z) as [s|s| |s m' e']; try contradiction.
  - subst s. unfold mul, SFmul. rewrite xorb_false_r.
    destruct (Z.ltb_spec z 0); split; intros; try lia; reflexivity.
  - destruct H as [-> H]. unfold mul, SFmul. rewrite xorb_false_r.
    pose proof (Zdigits2_mul_ge (Z.pos m') (Z.pos m) ltac:(lia) ltac:(lia)) as D.
    change (Z.pos m' * Z.pos m) with (Z.pos (m' * m)) in D.
    pose proof (binary_round_aux_nonzero (z <? 0) (Z.pos (m' * m)) (e' + e)
                  loc_Exact ltac:(lia) ltac:(lia)) as R.
    destruct (binary_round_aux prec emax (z <? 0) (Z.pos (m' * m)) (e' + e)
                loc_Exact) as [s|s| |s m'' e'']; try contradiction.
    + subst s. destruct (Z.ltb_spec z 0); split; intros; try lia; reflexivity.
    + destruct R as [-> _].
      destruct (Z.ltb_spec z 0); split; intros; try lia; reflexivity.
Qed.

(** The velocity of a raw reading: never NaN, and of the reading's sign. *)
Lemma reading_velocity_sign (z : Z) :
  let v := (of_int z * CTRE_UNITS_TO_RPS)%float in
  is_nan v = false /\
  (is_zero v = true <-> z = 0) /\
  ((zero <? v)%float = true <-> 0 < z) /\
  ((v <? zero)%float = true <-> z < 0).
Proof.
  replace CTRE_UNITS_TO_RPS with (S754_finite false 5629499534213120 (-60))
    by (vm_compute; reflexivity).
  intros v.
  destruct (reading_scaled_sign z 5629499534213120 (-60))
    as (Hn & Hz & Hp & Hm).
  fold v in Hn, Hz, Hp, Hm.
  assert (Hnz : z <> 0 ->
                (0 < z -> (zero <? v)%float = true) /\
                (z < 0 -> (v <? zero)%float = true)).
  { intros H. apply (reading_scaled_nonzero z 5629499534213120 (-60) H).
    simpl. lia. }
  repeat split; trivial.
  - intros Hv. destruct (Z.eq_dec z 0) as [|Hne]; trivial. exfalso.
    destruct (Hnz Hne) as [Hgt Hlt].
    destruct (Z.lt_total z 0) as [L|[L|L]]; try lia.
    + specialize (Hlt L). destruct v; discriminate.
    + specialize (Hgt L). destruct v; discriminate.
  - intros H. apply Hnz; lia.
  - intros H. apply Hnz; lia.
Qed.

(** X7: a measured velocity is never NaN and has the sign of the raw
    sensor reading: it is zero exactly for a reading of 0, positive exactly
    for a positive reading and negative exactly for a negative one. *)
Theorem velocity_sign (hw : readings) :
  (is_nan (get_centre_velocity hw) = false /\
   (is_zero (get_centre_velocity hw) = true <->
    centre_sensor_velocity hw = 0) /\
   ((zero <? get_centre_velocity hw)%float = true <->
    0 < centre_sensor_velocity hw) /\
   ((get_centre_velocity hw <? zero)%float = true <->
    centre_sensor_velocity hw < 0)) /\
  (is_nan (get_outer_velocity hw) = false /\
   (is_zero (get_outer_velocity hw) = true <->
    outer_sensor_velocity hw = 0) /\
   ((zero <? get_outer_velocity hw)%float = true <->
    0 < outer_sensor_velocity hw) /\
   ((get_outer_velocity hw <? zero)%float = true <->
    outer_sensor_velocity hw < 0)).
Proof.
  unfold get_centre_velocity, get_outer_velocity.
  split; apply reading_velocity_sign.
Qed.
